(** * CheckM [prodigal.py]: parsers for Prodigal output and the coding-base mask

    A shallow embedding of [ProdigalFastaParser] and
    [ProdigalGeneFeatureParser] of [checkm/prodigal.py].

    - Python dictionaries are finite maps ([gmap]) keyed by strings.
    - Python integers are unbounded, hence [Z]; the gene counter only
      counts up from 0, hence [nat].
    - A numpy array of [float64] zeros and ones is a [list Z] holding 0 and 1;
      [np.sum] over such an array is an exact integer.
    - Exceptions are the [Raise] branch of the [result] type.
    - The module is Python 2 (it imports its sibling modules by bare name):
      strings are byte strings, [str.split] and [int] take the six ASCII
      whitespace characters as blanks, and [int] reads an optional sign and
      decimal digits.
    - The files on disk are a finite map from path to contents. *)

From Stdlib Require Import ZArith Ascii String DecimalNat DecimalString.
From stdpp Require Import gmap strings list fin_maps.

Local Open Scope string_scope.
Local Open Scope Z_scope.

(** ** Exceptions *)

Inductive error : Type :=
  | MissingInputFile   (* raised by [checkFileExists] *)
  | IOError            (* [open] on a path that does not exist *)
  | IndexError         (* [s[i]] out of range *)
  | ValueError         (* [int(s)] on a non-number, [np.zeros] of a negative *)
  | KeyError           (* [d[k]] for an absent key *)
  | UnboundLocalError. (* a local variable read before it is assigned *)

Inductive result (A : Type) : Type :=
  | Ok (a : A)
  | Raise (e : error).
Arguments Ok {A} a.
Arguments Raise {A} e.

(** Sequencing, written [x ← r; k]: an exception ends the computation. *)
#[global] Instance result_bind : MBind result := λ A B k r,
  match r with
  | Ok a => k a
  | Raise e => Raise e
  end.

Definition or_raise {A} (e : error) (o : option A) : result A :=
  match o with
  | Some a => Ok a
  | None => Raise e
  end.

(** [for x in xs: st = body(st, x)] where the body may raise. *)
Fixpoint for_each {S X} (body : S → X → result S) (st : S) (xs : list X)
  : result S :=
  match xs with
  | [] => Ok st
  | x :: xs' => st' ← body st x; for_each body st' xs'
  end.

(** ** Python string primitives *)

Module Py.

Definition LF : ascii := "010"%char.
Definition TAB : ascii := "009"%char.

(** [str.isspace] on one byte: space, [\t], [\n], [\v], [\f], [\r]. *)
Definition isspace (c : ascii) : bool :=
  let n := nat_of_ascii c in
  (n =? 32)%nat || ((9 <=? n)%nat && (n <=? 13)%nat).

(** Iterating over an open file: the lines, each with its terminating
    newline (the last line has none when the file does not end in one).
    No line is empty. *)
Fixpoint readlines (s : string) : list string :=
  match s with
  | EmptyString => []
  | String c s' =>
      if Ascii.eqb c LF then String c EmptyString :: readlines s'
      else match readlines s' with
           | [] => [String c EmptyString]
           | l :: ls => String c l :: ls
           end
  end.

(** [s[0]] *)
Definition head (s : string) : result ascii :=
  match s with
  | EmptyString => Raise IndexError
  | String c _ => Ok c
  end.

(** [s[1:]] *)
Definition tail (s : string) : string :=
  match s with
  | EmptyString => EmptyString
  | String _ s' => s'
  end.

(** [s.split(sep)] for a one-character separator: never empty. *)
Fixpoint split_on (sep : ascii) (s : string) : list string :=
  match s with
  | EmptyString => [EmptyString]
  | String c s' =>
      if Ascii.eqb c sep then EmptyString :: split_on sep s'
      else match split_on sep s' with
           | [] => [String c EmptyString]
           | f :: fs => String c f :: fs
           end
  end.

(** [s.split()]: the maximal runs of non-whitespace characters. *)
Fixpoint split (s : string) : list string :=
  match s with
  | EmptyString => []
  | String c s' =>
      if isspace c then split s'
      else match s' with
           | EmptyString => [String c EmptyString]
           | String c' _ =>
               if isspace c' then String c EmptyString :: split s'
               else match split s' with
                    | [] => [String c EmptyString]
                    | t :: ts => String c t :: ts
                    end
           end
  end.

(** [l[i]] on a list *)
Definition item {A} (l : list A) (i : nat) : result A :=
  or_raise IndexError (l !! i).

Fixpoint lstrip (s : string) : string :=
  match s with
  | String c s' => if isspace c then lstrip s' else s
  | EmptyString => EmptyString
  end.

Fixpoint rstrip (s : string) : string :=
  match s with
  | EmptyString => EmptyString
  | String c s' =>
      match rstrip s' with
      | EmptyString => if isspace c then EmptyString else String c EmptyString
      | t => String c t
      end
  end.

Definition digit (c : ascii) : option Z :=
  let n := nat_of_ascii c in
  if (48 <=? n)%nat && (n <=? 57)%nat then Some (Z.of_nat (n - 48)) else None.

(** A non-empty run of decimal digits, most significant first. *)
Fixpoint digits (acc : Z) (s : string) : option Z :=
  match s with
  | EmptyString => Some acc
  | String c s' =>
      match digit c with
      | Some d => digits (10 * acc + d) s'
      | None => None
      end
  end.

Definition unsigned (s : string) : option Z :=
  match s with
  | EmptyString => None
  | _ => digits 0 s
  end.

(** [int(s)], base 10: surrounding whitespace is dropped, then an optional
    sign and at least one digit; anything else is a [ValueError]. *)
Definition int (s : string) : result Z :=
  or_raise ValueError
    match rstrip (lstrip s) with
    | String "-"%char d => Z.opp <$> unsigned d
    | String "+"%char d => unsigned d
    | t => unsigned t
    end.

(** [str(n)] for a non-negative integer *)
Definition str (n : nat) : string := NilZero.string_of_uint (Nat.to_uint n).

(** The slice bound [i] of a sequence of length [n], as [a[i:j]] reads it:
    a negative bound counts from the end, and both are clipped to [0..n]. *)
Definition slice_bound (n i : Z) : Z :=
  if i <? 0 then Z.max (i + n) 0 else Z.min i n.

(** [a[i:j]] *)
Definition slice {A} (a : list A) (i j : Z) : list A :=
  let n := Z.of_nat (length a) in
  let lo := slice_bound n i in
  let hi := slice_bound n j in
  take (Z.to_nat (hi - lo)) (drop (Z.to_nat lo) a).

(** [a[i:j] = v] on a numpy array: every element of the slice becomes [v];
    the length of [a] never changes. *)
Definition slice_fill {A} (a : list A) (i j : Z) (v : A) : list A :=
  let n := Z.of_nat (length a) in
  let lo := slice_bound n i in
  let hi := slice_bound n j in
  imap (λ k x, if bool_decide (lo ≤ Z.of_nat k < hi) then v else x) a.

(** [np.zeros(n)] *)
Definition zeros (n : Z) : result (list Z) :=
  if n <? 0 then Raise ValueError else Ok (replicate (Z.to_nat n) 0).

(** [np.sum(a)] *)
Definition sum (a : list Z) : Z := foldr Z.add 0 a.

End Py.

(** ** Files *)

(** The files on disk: path to contents. *)
Abbreviation filesystem := (gmap string string).

(** Modelled from the spec: [checkFileExists] of [common.py], which is not
    part of [prodigal.py]. The spec says that either parser "fails with a
    FileNotFound-class error if the input file does not exist prior to
    parsing" (MissingInputFile); on an existing file it does nothing. *)
Definition checkFileExists (fs : filesystem) (filename : string) : result unit :=
  match fs !! filename with
  | Some _ => Ok ()
  | None => Raise MissingInputFile
  end.

(** [open(filename)], iterated line by line *)
Definition open (fs : filesystem) (filename : string) : result (list string) :=
  contents ← or_raise IOError (fs !! filename);
  Ok (Py.readlines contents).

(** ** [class ProdigalFastaParser] *)

Module ProdigalFastaParser.

(** The body of the loop of [genePositions]: [gp] is the dictionary so far. *)
Definition genePositions_line (gp : gmap string (Z * Z)) (line : string)
  : result (gmap string (Z * Z)) :=
  c ← Py.head line;
  if Ascii.eqb c ">" then
    let lineSplit := Py.split (Py.tail line) in
    geneId ← Py.item lineSplit 0;
    f2 ← Py.item lineSplit 2;
    startPos ← Py.int f2;
    f4 ← Py.item lineSplit 4;
    endPos ← Py.int f4;
    Ok (<[geneId := (startPos, endPos)]> gp)
  else Ok gp.

Definition genePositions (fs : filesystem) (filename : string)
  : result (gmap string (Z * Z)) :=
  _ ← checkFileExists fs filename;
  lines ← open fs filename;
  for_each genePositions_line ∅ lines.

End ProdigalFastaParser.

(** ** [class ProdigalGeneFeatureParser] *)

Module ProdigalGeneFeatureParser.

(** What [__parseGFF] reads and writes: the two dictionaries of [self] and
    its local variable [geneCounter], unassigned at first. *)
Record gff_state : Type := GffState {
  st_genes : gmap string (gmap string (Z * Z));
  st_lastCodingBase : gmap string Z;
  st_geneCounter : option nat
}.

(** The object once [__init__] has returned. *)
Record t : Type := Parser {
  genes : gmap string (gmap string (Z * Z));
  lastCodingBase : gmap string Z;
  codingBaseMasks : gmap string (list Z)
}.

(** [if seqId not in self.genes: ...] *)
Definition enter_sequence (st : gff_state) (seqId : string) : gff_state :=
  match st_genes st !! seqId with
  | None =>
      {| st_genes := <[seqId := ∅]> (st_genes st);
         st_lastCodingBase := <[seqId := 0]> (st_lastCodingBase st);
         st_geneCounter := Some 0%nat |}
  | Some _ => st
  end.

(** The body of the loop of [__parseGFF]. *)
Definition parseGFF_line (st : gff_state) (line : string) : result gff_state :=
  c ← Py.head line;
  if Ascii.eqb c "#" then Ok st
  else
    let lineSplit := Py.split_on Py.TAB line in
    seqId ← Py.item lineSplit 0;
    let st := enter_sequence st seqId in
    geneCounter ← or_raise UnboundLocalError (st_geneCounter st);
    let geneId := seqId ++ "_" ++ Py.str geneCounter in
    let geneCounter := S geneCounter in
    f3 ← Py.item lineSplit 3;
    start ← Py.int f3;
    f4 ← Py.item lineSplit 4;
    end_ ← Py.int f4;
    seqGenes ← or_raise KeyError (st_genes st !! seqId);
    let genes' := <[seqId := <[geneId := (start, end_)]> seqGenes]> (st_genes st) in
    last ← or_raise KeyError (st_lastCodingBase st !! seqId);
    Ok {| st_genes := genes';
          st_lastCodingBase := <[seqId := Z.max last end_]> (st_lastCodingBase st);
          st_geneCounter := Some geneCounter |}.

Definition parseGFF (st : gff_state) (lines : list string) : result gff_state :=
  for_each parseGFF_line st lines.

(** [__buildCodingBaseMask] *)
Definition buildCodingBaseMask
    (genes : gmap string (gmap string (Z * Z))) (lastCodingBase : gmap string Z)
    (seqId : string) : result (list Z) :=
  n ← or_raise KeyError (lastCodingBase !! seqId);
  codingBaseMask ← Py.zeros n;
  seqGenes ← or_raise KeyError (genes !! seqId);
  Ok (map_fold (λ _ pos mask, Py.slice_fill mask pos.1 (pos.2 + 1) 1)
        codingBaseMask seqGenes).

(** [for seqId in self.genes: self.codingBaseMasks[seqId] = ...] *)
Definition buildMasks
    (genes : gmap string (gmap string (Z * Z))) (lastCodingBase : gmap string Z)
  : result (gmap string (list Z)) :=
  map_fold
    (λ seqId _ acc,
       masks ← acc;
       mask ← buildCodingBaseMask genes lastCodingBase seqId;
       Ok (<[seqId := mask]> masks))
    (Ok ∅) genes.

Definition initial : gff_state :=
  {| st_genes := ∅; st_lastCodingBase := ∅; st_geneCounter := None |}.

(** [__init__] *)
Definition new (fs : filesystem) (filename : string) : result t :=
  _ ← checkFileExists fs filename;
  lines ← open fs filename;
  st ← parseGFF initial lines;
  masks ← buildMasks (st_genes st) (st_lastCodingBase st);
  Ok {| genes := st_genes st;
        lastCodingBase := st_lastCodingBase st;
        codingBaseMasks := masks |}.

(** [codingBases(self, seqId, start=0, end=None)]; [end_ = None] is the
    default argument. *)
Definition codingBases (self : t) (seqId : string) (start : Z) (end_ : option Z)
  : result Z :=
  match genes self !! seqId with
  | None => Ok 0
  | Some _ =>
      end' ← match end_ with
              | None => or_raise KeyError (lastCodingBase self !! seqId)
              | Some e => Ok e
              end;
      mask ← or_raise KeyError (codingBaseMasks self !! seqId);
      Ok (Py.sum (Py.slice mask start end'))
  end.

(** A parser that some call of the constructor returned. *)
Definition constructed (self : t) : Prop :=
  ∃ fs filename, new fs filename = Ok self.

End ProdigalGeneFeatureParser.

(** ** Notions used in the statements *)

(** An entry of a coding-base mask: 0 or 1. *)
Definition bit (x : Z) : Prop := x = 0 ∨ x = 1.

(** The number of entries of a mask that are 1. *)
Definition count_ones (mask : list Z) : nat := length (filter (λ x, x = 1) mask).

(** Every sequence with genes has a last coding base, and none is negative
    (it starts at 0 and only grows). *)
Definition tables_ok (genes : gmap string (gmap string (Z * Z)))
    (lastCodingBase : gmap string Z) : Prop :=
  ∀ seqId, is_Some (genes !! seqId) →
    ∃ n, lastCodingBase !! seqId = Some n ∧ 0 ≤ n.

(** [line] is a line of the feature table that is no comment and whose first
    column is [seqId]. *)
Definition names_sequence (seqId line : string) : Prop :=
  ∃ c, Py.head line = Ok c ∧ c ≠ "#"%char ∧
       Py.item (Py.split_on Py.TAB line) 0 = Ok seqId.

(** The value [end] stands for in [codingBases]: itself, or the last coding
    base [n] of the sequence when it is left out. *)
Definition end_or (n : Z) (end_ : option Z) : Z := default n end_.

(** Position [p] lies in the inclusive interval [pos = (start, end)]. *)
Definition covers (pos : Z * Z) (p : Z) : Prop := pos.1 ≤ p ≤ pos.2.

(** Index [k] of an array of length [n] lies in the slice
    [start : end + 1] that [__buildCodingBaseMask] fills for [pos]. *)
Definition in_fill (n : Z) (pos : Z * Z) (k : nat) : Prop :=
  Py.slice_bound n pos.1 ≤ Z.of_nat k < Py.slice_bound n (pos.2 + 1).

(** *** The header extractor as the spec words it

    A header line begins with [>]; of its whitespace-separated tokens the
    first is the gene identifier, the third the start and the fifth the end
    coordinate. *)
Definition header_entry (line : string) : option (string * (Z * Z)) :=
  match line with
  | String c rest =>
      if Ascii.eqb c ">" then
        let tokens := Py.split rest in
        match tokens !! 0%nat, tokens !! 2%nat, tokens !! 4%nat with
        | Some geneId, Some a, Some b =>
            match Py.int a, Py.int b with
            | Ok startPos, Ok endPos => Some (geneId, (startPos, endPos))
            | _, _ => None
            end
        | _, _, _ => None
        end
      else None
  | EmptyString => None
  end.

(** The coordinates of the last header line for [geneId]: a later
    occurrence of an identifier replaces an earlier one. *)
Fixpoint last_entry (geneId : string) (lines : list string) : option (Z * Z) :=
  match lines with
  | [] => None
  | line :: rest =>
      match last_entry geneId rest with
      | Some pos => Some pos
      | None =>
          match header_entry line with
          | Some (g, pos) => if decide (g = geneId) then Some pos else None
          | None => None
          end
      end
  end.

(** ** Test inputs *)

Definition tab : string := String Py.TAB "".
Definition nl : string := String Py.LF "".

(** One line of the feature table, as Prodigal writes it. *)
Definition gff_line (seqId start end_ : string) : string :=
  seqId ++ tab ++ "Prodigal_v2.60" ++ tab ++ "CDS" ++ tab ++ start ++ tab ++
  end_ ++ tab ++ "5.3" ++ tab ++ "+" ++ tab ++ "0" ++ tab ++ "ID=1_1;" ++ nl.

Definition gff_header : string := "##gff-version  3" ++ nl.

(** A directory holding the one file [genes.gff]. *)
Definition one_file (contents : string) : filesystem := {[ "genes.gff" := contents ]}.

(** One gene, from 2 to 5. *)
Definition gff_2_5 : string := gff_header ++ gff_line "A" "2" "5".

(** Two overlapping genes. *)
Definition gff_2_5_4_8 : string :=
  gff_header ++ gff_line "A" "2" "5" ++ gff_line "A" "4" "8".

(** Two genes that do not overlap. *)
Definition gff_0_2_5_7 : string :=
  gff_header ++ gff_line "A" "0" "2" ++ gff_line "A" "5" "7".

(** Sequences A, A, B, A. *)
Definition gff_interleaved : string :=
  gff_header ++ gff_line "A" "1" "3" ++ gff_line "A" "30" "40" ++
  gff_line "B" "1" "5" ++ gff_line "A" "7" "9".

(** Sequences A, A, B, A again; the second line will be the one replaced. *)
Definition gff_replaced_lines : list string :=
  [ gff_line "A" "1" "3"; gff_line "A" "10" "20";
    gff_line "B" "1" "5"; gff_line "A" "5" "6" ].

Definition gff_replaced : string := String.concat "" gff_replaced_lines.

(** The mask of sequence A in [gff_replaced]: 20 entries, 1 at 1..3 and 5..6. *)
Definition mask_replaced : list Z :=
  [0; 1; 1; 1; 0; 1; 1] ++ replicate 13 0.

(** A protein file with one record. *)
Definition faa_gene1 : string :=
  ">gene1 # 10 # 50 # 1 # note" ++ nl ++ "MKVLAAGIVG*" ++ nl.

(** The same identifier twice. *)
Definition faa_twice : string :=
  ">gene1 # 10 # 50 # 1 # note" ++ nl ++ "MKVLAAGIVG*" ++ nl ++
  ">gene2 # 60 # 90 # -1 # note" ++ nl ++ "MSTR*" ++ nl ++
  ">gene1 # 100 # 250 # 1 # note" ++ nl ++ "MAAAK*" ++ nl.

(** ** The lines of the two files *)

(** [line[0] == '#']: a comment line of the feature table. *)
Definition is_comment (line : string) : bool :=
  match line with
  | String c _ => Ascii.eqb c "#"
  | EmptyString => false
  end.

(** What a line of the feature table says when it has at least five
    tab-separated columns of which the fourth and the fifth are integers:
    the sequence identifier with the start and end coordinate. *)
Definition gff_record (line : string) : option (string * (Z * Z)) :=
  let cols := Py.split_on Py.TAB line in
  match cols !! 0%nat, cols !! 3%nat, cols !! 4%nat with
  | Some seqId, Some a, Some b =>
      match Py.int a, Py.int b with
      | Ok start, Ok end_ => Some (seqId, (start, end_))
      | _, _ => None
      end
  | _, _, _ => None
  end.


(** The records of the lines that are no comments, in the order of the
    file. *)
Definition gff_records (lines : list string) : list (string * (Z * Z)) :=
  omap (λ line, if is_comment line then None else gff_record line) lines.

(** The intervals that the records give for [seqId], in order. *)
Definition intervals_of (seqId : string) (recs : list (string * (Z * Z)))
  : list (Z * Z) :=
  omap (λ r, if decide (r.1 = seqId) then Some r.2 else None) recs.

(** [seqId + '_' + str(i)] *)
Definition gene_name (seqId : string) (i : nat) : string :=
  seqId ++ "_" ++ Py.str i.

(** The genes of a sequence numbered from 0 in the order of [intervals]. *)
Definition numbered (seqId : string) (intervals : list (Z * Z))
  : gmap string (Z * Z) :=
  list_to_map (imap (λ i pos, (gene_name seqId i, pos)) intervals).

(** Every sequence's records stand together: between two records of a
    sequence there is none of another. *)
Definition contiguous (ids : list string) : Prop :=
  ∀ (i j k : nat) (x : string),
    (i ≤ j ≤ k)%nat → ids !! i = Some x → ids !! k = Some x → ids !! j = Some x.

(** A line of the protein file that [genePositions] gets past: any line that
    does not begin with [>], or a header with its three tokens. *)
Definition faa_line_ok (line : string) : Prop :=
  match line with
  | String c _ => Ascii.eqb c ">" = false ∨ is_Some (header_entry line)
  | EmptyString => False
  end.


(** The state of [__parseGFF] after a line that is a record: [geneCounter],
    [seqGenes] and [last] are the counter, the genes of the sequence and its
    last coding base once the sequence has been entered. *)
Definition store_record (st : ProdigalGeneFeatureParser.gff_state)
    (seqId : string) (pos : Z * Z) (geneCounter : nat)
    (seqGenes : gmap string (Z * Z)) (last : Z)
  : ProdigalGeneFeatureParser.gff_state :=
  let st1 := ProdigalGeneFeatureParser.enter_sequence st seqId in
  ProdigalGeneFeatureParser.GffState
    (<[seqId := <[gene_name seqId geneCounter := pos]> seqGenes]>
       (ProdigalGeneFeatureParser.st_genes st1))
    (<[seqId := Z.max last pos.2]>
       (ProdigalGeneFeatureParser.st_lastCodingBase st1))
    (Some (S geneCounter)).

(** The running maximum of the end coordinates, from 0, as
    [self.lastCodingBase[seqId] = max(self.lastCodingBase[seqId], end)]
    computes it. *)
Definition max_end (intervals : list (Z * Z)) : Z :=
  foldl (λ m pos, Z.max m pos.2) 0 intervals.

(** After the lines [lines], the sequences with genes are those with
    records, and the last coding base of each is the running maximum over
    all its records. *)
Definition stored_ok (lines : list string) (st : ProdigalGeneFeatureParser.gff_state) : Prop :=
  ∀ seqId,
    let ivs := intervals_of seqId (gff_records lines) in
    (ProdigalGeneFeatureParser.st_genes st !! seqId = None ↔ ivs = []) ∧
    ProdigalGeneFeatureParser.st_lastCodingBase st !! seqId =
      match ivs with [] => None | _ => Some (max_end ivs) end.

(** On a file whose records are contiguous: after the lines [lines] every
    sequence holds its intervals numbered from 0, and the counter is the
    number of records of the sequence read last. *)
Definition numbered_ok (lines : list string)
    (st : ProdigalGeneFeatureParser.gff_state) : Prop :=
  let recs := gff_records lines in
  (∀ seqId,
     ProdigalGeneFeatureParser.st_genes st !! seqId =
       match intervals_of seqId recs with
       | [] => None
       | ivs => Some (numbered seqId ivs)
       end) ∧
  (∀ seqId, last recs.*1 = Some seqId →
     ProdigalGeneFeatureParser.st_geneCounter st
     = Some (length (intervals_of seqId recs))).

(** ** More test inputs *)


(** A protein file whose header lacks the end coordinate. *)
Definition faa_short_header : string :=
  ">gene1 # 10" ++ nl ++ "MKVLAAGIVG*" ++ nl.

(** Every gene stored after the lines [lines] is the interval of a line of
    its sequence, under an identifier of that sequence. *)
Definition genes_sound (lines : list string)
    (st : ProdigalGeneFeatureParser.gff_state) : Prop :=
  ∀ seqId seqGenes geneId pos,
    ProdigalGeneFeatureParser.st_genes st !! seqId = Some seqGenes →
    seqGenes !! geneId = Some pos →
    pos ∈ intervals_of seqId (gff_records lines) ∧
    ∃ i, geneId = gene_name seqId i.

(** ** The primitives on small inputs *)

Example readlines_ex :
  Py.readlines ("ab" ++ String Py.LF "" ++ String Py.LF "" ++ "c")
  = ["ab" ++ String Py.LF ""; String Py.LF ""; "c"].
Proof. reflexivity. Qed.

Example split_on_ex :
  Py.split_on Py.TAB ("a" ++ String Py.TAB "" ++ String Py.TAB "" ++ "b c")
  = ["a"; ""; "b c"].
Proof. reflexivity. Qed.

Example split_ex : Py.split "  gene1 # 10  # 50 " = ["gene1"; "#"; "10"; "#"; "50"].
Proof. reflexivity. Qed.

Example int_ex :
  Py.int " 42 " = Ok 42 ∧ Py.int "-7" = Ok (-7) ∧ Py.int "+007" = Ok 7 ∧
  Py.int "" = Raise ValueError ∧ Py.int "4 2" = Raise ValueError ∧
  Py.int "-" = Raise ValueError.
Proof. repeat split; reflexivity. Qed.

Example str_ex : Py.str 0 = "0" ∧ Py.str 12 = "12".
Proof. split; reflexivity. Qed.

Example slice_ex :
  Py.slice [10; 11; 12; 13] 1 3 = [11; 12] ∧
  Py.slice [10; 11; 12; 13] 2 99 = [12; 13] ∧
  Py.slice [10; 11; 12; 13] 0 (-1) = [10; 11; 12] ∧
  Py.slice [10; 11; 12; 13] 3 1 = [].
Proof. repeat split; reflexivity. Qed.

Example slice_fill_ex :
  Py.slice_fill [0; 0; 0; 0] 2 9 1 = [0; 0; 1; 1] ∧
  Py.slice_fill [0; 0; 0; 0] (-3) (-1) 1 = [0; 1; 1; 0].
Proof. split; reflexivity. Qed.

(** ** The exception monad *)

Lemma bind_Ok {A B} (r : result A) (k : A → result B) (b : B) :
  (r ≫= k) = Ok b ↔ ∃ a, r = Ok a ∧ k a = Ok b.
Proof.
  destruct r as [a|e]; simpl; split.
  - intros Hk. by exists a.
  - by intros (a' & [= <-] & Hk).
  - done.
  - by intros (a' & [=] & _).
Qed.

Lemma or_raise_Ok {A} (e : error) (o : option A) (a : A) :
  or_raise e o = Ok a ↔ o = Some a.
Proof. destruct o; simpl; split; congruence. Qed.

(** Takes a hypothesis [... = Ok _] apart, one statement of the program at a
    time. *)
Ltac inv_ok H :=
  repeat match type of H with
    | (_ ≫= _) = Ok _ =>
        let x := fresh "x" in
        let Hx := fresh "Hx" in
        apply bind_Ok in H as (x & Hx & H);
        lazymatch type of Hx with
        | or_raise _ _ = Ok _ => apply or_raise_Ok in Hx
        | _ => idtac
        end
    | or_raise _ _ = Ok _ => apply or_raise_Ok in H
    | Ok _ = Ok _ => injection H as H
    end.

Section for_each.
Context {S X : Type} (body : S → X → result S).

(** A property of the state that every iteration keeps holds after the
    loop. *)
Lemma for_each_invariant (P : S → Prop) (xs : list X) :
  (∀ st x st', x ∈ xs → P st → body st x = Ok st' → P st') →
  ∀ st st', P st → for_each body st xs = Ok st' → P st'.
Proof.
  induction xs as [|x xs IH]; intros Hstep st st' HP Hrun; simpl in Hrun.
  - by injection Hrun as <-.
  - apply bind_Ok in Hrun as (st1 & Hx & Hrun).
    eapply IH; [| |exact Hrun].
    + intros ? y ? Hy. apply Hstep. by right.
    + eapply Hstep; [by left|exact HP|exact Hx].
Qed.
End for_each.

(** ** Slices *)

Lemma slice_bound_nonneg (n i : Z) : 0 ≤ n → 0 ≤ i → Py.slice_bound n i = Z.min i n.
Proof. unfold Py.slice_bound. destruct (Z.ltb_spec i 0); lia. Qed.

Lemma length_slice_fill {A} (a : list A) (i j : Z) (v : A) :
  length (Py.slice_fill a i j v) = length a.
Proof. unfold Py.slice_fill. apply length_imap. Qed.

Lemma lookup_slice_fill {A} (a : list A) (i j : Z) (v : A) (k : nat) :
  Py.slice_fill a i j v !! k =
  (λ x, if bool_decide (Py.slice_bound (Z.of_nat (length a)) i ≤ Z.of_nat k
                        < Py.slice_bound (Z.of_nat (length a)) j)
        then v else x) <$> a !! k.
Proof. unfold Py.slice_fill. by rewrite list_lookup_imap. Qed.

Lemma Forall_slice_fill {A} (P : A → Prop) (a : list A) (i j : Z) (v : A) :
  P v → Forall P a → Forall P (Py.slice_fill a i j v).
Proof.
  intros Hv Ha. apply Forall_lookup. intros k x.
  rewrite lookup_slice_fill. destruct (a !! k) as [y|] eqn:Hk; simpl; [|done].
  intros [= <-]. case_bool_decide; [done|].
  by eapply Forall_lookup_1.
Qed.

(** An empty range, or one that starts past the end, selects nothing. *)
Lemma slice_empty {A} (a : list A) (i j : Z) :
  0 ≤ i → 0 ≤ j → j ≤ i ∨ Z.of_nat (length a) ≤ i → Py.slice a i j = [].
Proof.
  intros Hi Hj Hor. unfold Py.slice.
  rewrite !slice_bound_nonneg by lia.
  destruct Hor as [Hle|Hlen].
  - replace (Z.to_nat _) with 0%nat by lia. done.
  - rewrite drop_ge by lia. by rewrite take_nil.
Qed.

(** The range from 0 to the length is the whole array. *)
Lemma slice_all {A} (a : list A) : Py.slice a 0 (Z.of_nat (length a)) = a.
Proof.
  unfold Py.slice. rewrite !slice_bound_nonneg by lia.
  replace (Z.to_nat (Z.min 0 _)) with 0%nat by lia.
  rewrite drop_0. apply take_ge. lia.
Qed.

(** ** Zero-one arrays *)

Lemma sum_bits (a : list Z) :
  Forall bit a → Py.sum a = Z.of_nat (length (filter (λ x, x = 1) a)).
Proof.
  induction 1 as [|x a [->| ->] _ IH]; [done| |].
  - rewrite filter_cons_False by done. simpl. by rewrite IH.
  - rewrite filter_cons_True by done. simpl. rewrite IH. lia.
Qed.

Lemma zeros_Ok (n : Z) :
  0 ≤ n → Py.zeros n = Ok (replicate (Z.to_nat n) 0).
Proof. intros Hn. unfold Py.zeros. by destruct (Z.ltb_spec n 0); [lia|]. Qed.

(** ** Invariants of [__parseGFF] *)

Section parse.
Import ProdigalGeneFeatureParser.

Lemma enter_sequence_ok st seqId :
  tables_ok (st_genes st) (st_lastCodingBase st) →
  tables_ok (st_genes (enter_sequence st seqId))
            (st_lastCodingBase (enter_sequence st seqId)).
Proof.
  intros Hok. unfold enter_sequence.
  destruct (st_genes st !! seqId) eqn:Hin; [done|]. simpl.
  intros k. destruct (decide (seqId = k)) as [<-|Hne].
  - intros _. exists 0. by rewrite lookup_insert_eq.
  - rewrite !lookup_insert_ne by done. apply Hok.
Qed.

Lemma parseGFF_line_ok st line st' :
  parseGFF_line st line = Ok st' →
  tables_ok (st_genes st) (st_lastCodingBase st) →
  tables_ok (st_genes st') (st_lastCodingBase st').
Proof.
  unfold parseGFF_line. intros H Hok. inv_ok H.
  destruct (Ascii.eqb x "#"); [by injection H as <-|].
  inv_ok H. subst st'. simpl.
  apply (enter_sequence_ok _ x0) in Hok.
  intros k. destruct (decide (x0 = k)) as [<-|Hne].
  - intros _. rewrite lookup_insert_eq.
    destruct (Hok x0) as (n & Hn & Hpos); [by eexists|].
    exists (Z.max x7 x5). split; [done|]. rewrite Hn in Hx7. injection Hx7 as <-. lia.
  - rewrite !lookup_insert_ne by done. apply Hok.
Qed.

Lemma parseGFF_ok lines st :
  parseGFF initial lines = Ok st →
  tables_ok (st_genes st) (st_lastCodingBase st).
Proof.
  apply (for_each_invariant parseGFF_line
           (λ st, tables_ok (st_genes st) (st_lastCodingBase st))).
  - intros ? ? ? _ ? ?. by eapply parseGFF_line_ok.
  - intros k [g Hg]. simpl in Hg. by rewrite lookup_empty in Hg.
Qed.

(** ** The masks *)

Lemma fill_genes_shape (seqGenes : gmap string (Z * Z)) (mask0 : list Z) :
  Forall bit mask0 →
  let mask := map_fold (λ _ pos mask, Py.slice_fill mask pos.1 (pos.2 + 1) 1)
                mask0 seqGenes in
  length mask = length mask0 ∧ Forall bit mask.
Proof.
  intros H0. simpl.
  apply (map_fold_weak_ind (λ mask (_ : gmap string (Z * Z)),
           length mask = length mask0 ∧ Forall bit mask)).
  - done.
  - intros geneId pos g mask _ [Hlen Hbit]. split.
    + by rewrite length_slice_fill.
    + apply Forall_slice_fill; [by right|done].
Qed.

Lemma buildCodingBaseMask_Ok genes lastCodingBase seqId :
  tables_ok genes lastCodingBase → is_Some (genes !! seqId) →
  ∃ n mask,
    lastCodingBase !! seqId = Some n ∧ 0 ≤ n ∧
    buildCodingBaseMask genes lastCodingBase seqId = Ok mask ∧
    Z.of_nat (length mask) = n ∧ Forall bit mask.
Proof.
  intros Hok Hin. destruct (Hok _ Hin) as (n & Hn & Hpos).
  destruct Hin as [g Hg]. exists n.
  unfold buildCodingBaseMask. rewrite Hn, Hg. simpl.
  rewrite zeros_Ok by done. simpl.
  eexists. split; [done|]. split; [done|]. split; [done|].
  destruct (fill_genes_shape g (replicate (Z.to_nat n) 0)) as [Hlen Hbit].
  { apply Forall_replicate. by left. }
  split; [|done]. rewrite Hlen, length_replicate. lia.
Qed.

Lemma buildMasks_Ok genes lastCodingBase :
  tables_ok genes lastCodingBase →
  ∃ masks,
    buildMasks genes lastCodingBase = Ok masks ∧
    ∀ seqId mask,
      masks !! seqId = Some mask ↔
      is_Some (genes !! seqId) ∧
      buildCodingBaseMask genes lastCodingBase seqId = Ok mask.
Proof.
  intros Hok. unfold buildMasks.
  set (build := buildCodingBaseMask genes lastCodingBase).
  cut (∀ m : gmap string (gmap string (Z * Z)),
         (∀ k, is_Some (m !! k) → is_Some (genes !! k)) →
         ∃ masks : gmap string (list Z),
           map_fold (λ seqId _ acc, masks ← acc; mask ← build seqId;
                                     Ok (<[seqId := mask]> masks)) (Ok ∅) m
           = Ok masks ∧
           ∀ seqId mask, masks !! seqId = Some mask ↔
                         is_Some (m !! seqId) ∧ build seqId = Ok mask).
  { intros Hcut. by apply Hcut. }
  intros m.
  apply (map_fold_weak_ind (λ r (m : gmap string (gmap string (Z * Z))),
    (∀ k, is_Some (m !! k) → is_Some (genes !! k)) →
    ∃ masks : gmap string (list Z), r = Ok masks ∧
      ∀ seqId mask, masks !! seqId = Some mask ↔
                    is_Some (m !! seqId) ∧ build seqId = Ok mask)).
  - intros _. exists ∅. split; [done|]. intros seqId mask.
    rewrite !lookup_empty. split; [done|]. by intros [[? [=]] _].
  - intros k g m' r Hfresh IH Hsub.
    destruct IH as (masks & -> & Hmasks).
    { intros k' Hk'. apply Hsub. destruct (decide (k = k')) as [<-|Hne].
      - rewrite Hfresh in Hk'. by destruct Hk'.
      - by rewrite lookup_insert_ne. }
    destruct (buildCodingBaseMask_Ok genes lastCodingBase k Hok)
      as (n & mask & _ & _ & Hbuild & _).
    { apply Hsub. rewrite lookup_insert_eq. by eexists. }
    simpl. fold build in Hbuild. rewrite Hbuild. simpl.
    eexists. split; [done|]. intros seqId mask'.
    destruct (decide (k = seqId)) as [<-|Hne].
    + rewrite !lookup_insert_eq. split.
      * intros [= <-]. split; [by eexists|done].
      * intros [_ Hb]. congruence.
    + rewrite !lookup_insert_ne by done. apply Hmasks.
Qed.

(** What every constructed parser satisfies for a sequence with genes. *)
Lemma constructed_inv (self : t) (seqId : string) :
  constructed self → is_Some (genes self !! seqId) →
  ∃ n mask,
    lastCodingBase self !! seqId = Some n ∧ 0 ≤ n ∧
    codingBaseMasks self !! seqId = Some mask ∧
    buildCodingBaseMask (genes self) (lastCodingBase self) seqId = Ok mask ∧
    Z.of_nat (length mask) = n ∧ Forall bit mask.
Proof.
  intros (fs & filename & Hnew) Hin. unfold new in Hnew. inv_ok Hnew.
  apply parseGFF_ok in Hx1.
  destruct (buildMasks_Ok _ _ Hx1) as (masks & Hmasks & Hlook).
  rewrite Hmasks in Hx2. injection Hx2 as <-. subst self. simpl in *.
  destruct (buildCodingBaseMask_Ok _ _ seqId Hx1 Hin)
    as (n & mask & Hn & Hpos & Hbuild & Hlen & Hbit).
  exists n, mask. repeat split; try done. by apply Hlook.
Qed.

End parse.

(** ** [codingBases] *)

Section codingBases.
Import ProdigalGeneFeatureParser.

(** With all three dictionaries holding [seqId], the query is one slice
    sum. *)
Lemma codingBases_eq (self : t) (seqId : string) seqGenes n mask start end_ :
  genes self !! seqId = Some seqGenes →
  lastCodingBase self !! seqId = Some n →
  codingBaseMasks self !! seqId = Some mask →
  codingBases self seqId start end_
  = Ok (Py.sum (Py.slice mask start (end_or n end_))).
Proof.
  intros Hg Hn Hm. unfold codingBases. rewrite Hg, Hn, Hm.
  by destruct end_.
Qed.

Lemma codingBases_no_genes (self : t) (seqId : string) start end_ :
  genes self !! seqId = None → codingBases self seqId start end_ = Ok 0.
Proof. intros Hg. unfold codingBases. by rewrite Hg. Qed.

(** A line that does not name [seqId] leaves it without genes. *)
Lemma parseGFF_line_absent st line st' seqId :
  ¬ names_sequence seqId line →
  parseGFF_line st line = Ok st' →
  st_genes st !! seqId = None → st_genes st' !! seqId = None.
Proof.
  unfold parseGFF_line. intros Hnot H Hnone. inv_ok H.
  destruct (Ascii.eqb_spec x "#") as [->|Hc]; [by injection H as <-|].
  inv_ok H. subst st'. simpl.
  assert (x0 ≠ seqId) as Hne.
  { intros ->. apply Hnot. by exists x. }
  rewrite lookup_insert_ne by done.
  unfold enter_sequence. destruct (st_genes st !! x0); [done|]. simpl.
  by rewrite lookup_insert_ne.
Qed.

Lemma new_absent fs filename contents self seqId :
  fs !! filename = Some contents →
  new fs filename = Ok self →
  (∀ line, line ∈ Py.readlines contents → ¬ names_sequence seqId line) →
  genes self !! seqId = None.
Proof.
  intros Hfile Hnew Habs. unfold new, open in Hnew. rewrite Hfile in Hnew.
  inv_ok Hnew. subst self. simpl. injection Hx0 as <-.
  revert Hx1. apply (for_each_invariant parseGFF_line
                       (λ st, st_genes st !! seqId = None)); [|done].
  intros st line st' Hin Hnone Hline.
  eapply parseGFF_line_absent; [by apply Habs|exact Hline|exact Hnone].
Qed.

End codingBases.

(** ** Properties of [codingBases] *)

Section codingBases_claims.
Import ProdigalGeneFeatureParser.

(** C5. For every feature file that parses and every sequence with recorded
    genes, [codingBases(seqId)] with [start] and [end] left out takes the
    sequence's last coding base for [end], and returns the number of entries
    equal to 1 in the whole cached mask of the sequence. *)
Theorem codingBases_default fs filename self seqId :
  new fs filename = Ok self →
  is_Some (genes self !! seqId) →
  ∃ n mask,
    lastCodingBase self !! seqId = Some n ∧
    codingBaseMasks self !! seqId = Some mask ∧
    codingBases self seqId 0 None = codingBases self seqId 0 (Some n) ∧
    codingBases self seqId 0 None = Ok (Z.of_nat (count_ones mask)).
Proof.
  intros Hnew Hin.
  destruct (constructed_inv self seqId) as (n & mask & Hn & _ & Hm & _ & Hlen & Hbit);
    [by exists fs, filename|done|].
  destruct Hin as [seqGenes Hg].
  exists n, mask. split; [done|]. split; [done|].
  rewrite !(codingBases_eq self seqId seqGenes n mask) by done.
  split; [done|]. simpl. rewrite <- Hlen, slice_all.
  by rewrite sum_bits.
Qed.

Lemma codingBases_default_witness :
  ∃ self, new (one_file gff_0_2_5_7) "genes.gff" = Ok self ∧
    ∃ n mask,
      lastCodingBase self !! "A" = Some n ∧
      codingBaseMasks self !! "A" = Some mask ∧
      codingBases self "A" 0 None = codingBases self "A" 0 (Some n) ∧
      codingBases self "A" 0 None = Ok (Z.of_nat (count_ones mask)).
Proof.
  eexists. split; [vm_compute; reflexivity|].
  apply (codingBases_default (one_file gff_0_2_5_7) "genes.gff").
  - vm_compute. reflexivity.
  - eexists. vm_compute. reflexivity.
Defined.

(** C6. A sequence identifier that no line of the feature file names has no
    recorded genes, and [codingBases] returns 0 for it, whatever [start] and
    [end] are, without raising. *)
Theorem codingBases_unknown fs filename contents self seqId start end_ :
  fs !! filename = Some contents →
  new fs filename = Ok self →
  (∀ line, line ∈ Py.readlines contents → ¬ names_sequence seqId line) →
  genes self !! seqId = None ∧ codingBases self seqId start end_ = Ok 0.
Proof.
  intros Hfile Hnew Habs.
  assert (genes self !! seqId = None) as Hnone by by eapply new_absent.
  split; [done|]. by apply codingBases_no_genes.
Qed.

(** C10. For a constructed parser and a sequence with recorded genes,
    [codingBases] returns a number for every [start] and every [end], given
    or left out; and for [0 <= start] and [0 <= end] a range with
    [start >= end], or with [start] at or past the length of the mask, gives
    0. *)
Theorem codingBases_never_raises fs filename self seqId :
  new fs filename = Ok self →
  is_Some (genes self !! seqId) →
  ∃ mask,
    codingBaseMasks self !! seqId = Some mask ∧
    (∀ start end_, ∃ v, codingBases self seqId start end_ = Ok v) ∧
    (∀ start end_,
       0 ≤ start → 0 ≤ end_ →
       end_ ≤ start ∨ Z.of_nat (length mask) ≤ start →
       codingBases self seqId start (Some end_) = Ok 0).
Proof.
  intros Hnew Hin.
  destruct (constructed_inv self seqId) as (n & mask & Hn & _ & Hm & _);
    [by exists fs, filename|done|].
  destruct Hin as [seqGenes Hg].
  exists mask. split; [done|]. split.
  - intros start end_. eexists. by eapply codingBases_eq.
  - intros start end_ Hs He Hor.
    rewrite (codingBases_eq self seqId seqGenes n mask) by done. simpl.
    by rewrite slice_empty.
Qed.

End codingBases_claims.

Section codingBases_witnesses.
Import ProdigalGeneFeatureParser.

Lemma codingBases_unknown_witness :
  ∃ self, new (one_file gff_2_5_4_8) "genes.gff" = Ok self ∧
    genes self !! "B" = None ∧ codingBases self "B" 3 (Some 9) = Ok 0.
Proof.
  eexists. split; [vm_compute; reflexivity|].
  apply (codingBases_unknown (one_file gff_2_5_4_8) "genes.gff" gff_2_5_4_8).
  - vm_compute. reflexivity.
  - vm_compute. reflexivity.
  - intros line Hin (c & Hc & Hne & Hitem).
    vm_compute in Hin.
    repeat (apply elem_of_cons in Hin as [-> | Hin]);
      [vm_compute in Hc; congruence
      |vm_compute in Hitem; discriminate
      |vm_compute in Hitem; discriminate
      |by apply elem_of_nil in Hin].
Defined.

Lemma codingBases_never_raises_witness :
  ∃ self, new (one_file gff_2_5_4_8) "genes.gff" = Ok self ∧
    ∃ mask,
      codingBaseMasks self !! "A" = Some mask ∧
      (∀ start end_, ∃ v, codingBases self "A" start end_ = Ok v) ∧
      (∀ start end_,
         0 ≤ start → 0 ≤ end_ →
         end_ ≤ start ∨ Z.of_nat (length mask) ≤ start →
         codingBases self "A" start (Some end_) = Ok 0).
Proof.
  eexists. split; [vm_compute; reflexivity|].
  apply (codingBases_never_raises (one_file gff_2_5_4_8) "genes.gff").
  - vm_compute. reflexivity.
  - eexists. vm_compute. reflexivity.
Defined.

End codingBases_witnesses.

(** ** [ProdigalFastaParser.genePositions] *)

Section genePositions.
Import ProdigalFastaParser.

(** One iteration stores what the header line says, and skips any other
    line. *)
Lemma genePositions_line_entry gp line gp' :
  genePositions_line gp line = Ok gp' →
  gp' = match header_entry line with
        | Some (geneId, pos) => <[geneId := pos]> gp
        | None => gp
        end.
Proof.
  unfold genePositions_line, header_entry. intros H.
  destruct line as [|c rest]; [done|]. simpl in H.
  destruct (Ascii.eqb c ">"); [|by injection H as <-].
  simpl in H. inv_ok H. unfold Py.item in Hx, Hx0, Hx2. inv_ok Hx. inv_ok Hx0.
  inv_ok Hx2. rewrite Hx, Hx0, Hx2, Hx1, Hx3. done.
Qed.

Lemma for_each_genePositions lines : ∀ gp gp',
  for_each genePositions_line gp lines = Ok gp' →
  ∀ geneId, gp' !! geneId = match last_entry geneId lines with
                            | Some pos => Some pos
                            | None => gp !! geneId
                            end.
Proof.
  induction lines as [|line lines IH]; intros gp gp' Hrun geneId; simpl in *.
  - by injection Hrun as <-.
  - apply bind_Ok in Hrun as (gp1 & Hline & Hrun).
    rewrite (IH _ _ Hrun geneId).
    destruct (last_entry geneId lines) as [pos|]; [done|].
    rewrite (genePositions_line_entry _ _ _ Hline).
    destruct (header_entry line) as [[g pos]|]; [|done].
    case_decide as Hg.
    + subst g. by rewrite lookup_insert_eq.
    + by rewrite lookup_insert_ne.
Qed.

(** C7. [genePositions] maps the gene identifier of every header line (the
    first whitespace token after [>]) to the pair of integers read from the
    third and fifth token, the last line for an identifier winning; and the
    header [>gene1 # 10 # 50 # 1 # note] alone gives [{"gene1": [10, 50]}]. *)
Theorem genePositions_last_wins :
  (∀ fs filename contents gp,
     fs !! filename = Some contents →
     genePositions fs filename = Ok gp →
     ∀ geneId, gp !! geneId = last_entry geneId (Py.readlines contents)) ∧
  genePositions {[ "genes.faa" := faa_gene1 ]} "genes.faa"
  = Ok {[ "gene1" := (10, 50) ]}.
Proof.
  split; [|vm_compute; reflexivity].
  intros fs filename contents gp Hfile Hrun geneId.
  unfold genePositions, checkFileExists, open in Hrun. rewrite Hfile in Hrun.
  simpl in Hrun.
  rewrite (for_each_genePositions _ _ _ Hrun geneId).
  destruct (last_entry geneId _); [done|apply lookup_empty].
Qed.

(** A repeated identifier: the coordinates of its last header line stay. *)
Lemma genePositions_last_wins_witness :
  ∃ gp, genePositions {[ "genes.faa" := faa_twice ]} "genes.faa" = Ok gp ∧
        gp = {[ "gene1" := (100, 250); "gene2" := (60, 90) ]} ∧
        ∀ geneId, gp !! geneId = last_entry geneId (Py.readlines faa_twice).
Proof.
  eexists. split; [vm_compute; reflexivity|]. split; [vm_compute; reflexivity|].
  apply (proj1 genePositions_last_wins {[ "genes.faa" := faa_twice ]} "genes.faa").
  - vm_compute. reflexivity.
  - vm_compute. reflexivity.
Defined.

(** C8. On a path that names no file, [genePositions] and the constructor of
    [ProdigalGeneFeatureParser] raise [MissingInputFile]: no dictionary, gene
    table or mask is returned, and the file is never opened (opening it
    would raise [IOError] instead). *)
Theorem missing_input_file (fs : filesystem) (filename : string) :
  fs !! filename = None →
  genePositions fs filename = Raise MissingInputFile ∧
  ProdigalGeneFeatureParser.new fs filename = Raise MissingInputFile ∧
  open fs filename = Raise IOError.
Proof.
  intros Hnone.
  unfold genePositions, ProdigalGeneFeatureParser.new, checkFileExists, open.
  by rewrite Hnone.
Qed.

Lemma missing_input_file_witness :
  genePositions (one_file gff_2_5) "genes.faa" = Raise MissingInputFile ∧
  ProdigalGeneFeatureParser.new (one_file gff_2_5) "genes.faa"
  = Raise MissingInputFile ∧
  open (one_file gff_2_5) "genes.faa" = Raise IOError.
Proof. apply (missing_input_file (one_file gff_2_5) "genes.faa"). vm_compute. reflexivity. Defined.

End genePositions.

(** ** The feature parser on concrete tables *)

Section tables.
Import ProdigalGeneFeatureParser.

(** C9. There is a feature file with lines for the sequences A, A, B, A in
    which the fourth line gets the identifier of the second ([A_1], the
    counter having restarted at B): the interval 10..20 of the second line is
    replaced by 5..6, the mask of A is the one of the intervals 1..3 and 5..6
    alone, so that no query counts a base of 10..20, and yet the last coding
    base of A is still 20. *)
Theorem interleaved_replaces_gene :
  ∃ st2 self,
    Py.readlines gff_replaced = gff_replaced_lines ∧
    parseGFF initial (take 2 gff_replaced_lines) = Ok st2 ∧
    st_genes st2 !! "A" = Some {[ "A_0" := (1, 3); "A_1" := (10, 20) ]} ∧
    new (one_file gff_replaced) "genes.gff" = Ok self ∧
    genes self !! "A" = Some {[ "A_0" := (1, 3); "A_1" := (5, 6) ]} ∧
    lastCodingBase self !! "A" = Some 20 ∧
    codingBaseMasks self !! "A" = Some mask_replaced ∧
    mask_replaced
    = Py.slice_fill (Py.slice_fill (replicate 20 0) 1 (3 + 1) 1) 5 (6 + 1) 1 ∧
    (∀ k : nat, (10 ≤ k < 20)%nat → mask_replaced !! k = Some 0) ∧
    (∀ start end_,
       codingBases self "A" start end_
       = Ok (Py.sum (Py.slice mask_replaced start (end_or 20 end_)))) ∧
    codingBases self "A" 0 None = Ok 5 ∧
    codingBases self "A" 10 (Some 21) = Ok 0.
Proof.
  eexists _, _.
  split; [vm_compute; reflexivity|].
  split; [vm_compute; reflexivity|]. split; [vm_compute; reflexivity|].
  split; [vm_compute; reflexivity|]. split; [vm_compute; reflexivity|].
  split; [vm_compute; reflexivity|]. split; [vm_compute; reflexivity|].
  split; [vm_compute; reflexivity|]. split.
  { intros k Hk. do 20 (destruct k as [|k]; [first [lia | reflexivity]|]). lia. }
  split; [|split; vm_compute; reflexivity].
  intros start end_. eapply codingBases_eq; vm_compute; reflexivity.
Qed.

(** C3, on the table with lines for A, A, B, A: the fourth line is stored as
    [A_1], over the second, and no gene is called [A_2]. *)
Theorem interleaved_gene_ids :
  ∃ self,
    new (one_file gff_interleaved) "genes.gff" = Ok self ∧
    genes self = {[ "A" := {[ "A_0" := (1, 3); "A_1" := (7, 9) ]};
                    "B" := {[ "B_0" := (1, 5) ]} ]} ∧
    genes self !! "A" ≫= (.!! "A_2") = None.
Proof.
  eexists. split; [vm_compute; reflexivity|].
  split; vm_compute; reflexivity.
Qed.

(** C1, on the table with the one gene 2..5: the last coding base is 5 and
    the mask has 5 entries, for the positions 0..4; position 5, the last base
    of the gene, has none. *)
Theorem mask_one_short :
  ∃ self,
    new (one_file gff_2_5) "genes.gff" = Ok self ∧
    genes self !! "A" = Some {[ "A_0" := (2, 5) ]} ∧
    lastCodingBase self !! "A" = Some 5 ∧
    codingBaseMasks self !! "A" = Some [0; 0; 1; 1; 1] ∧
    codingBaseMasks self !! "A" ≫= (.!! 5%nat) = None.
Proof.
  eexists. split; [vm_compute; reflexivity|].
  repeat split; vm_compute; reflexivity.
Qed.

(** C2, on the table with the genes 2..5 and 4..8: the positions 2..7 are
    marked once each, position 8 has no entry, and [codingBases] over 2..9
    is 6. *)
Theorem overlap_counts_six :
  ∃ self,
    new (one_file gff_2_5_4_8) "genes.gff" = Ok self ∧
    codingBaseMasks self !! "A" = Some [0; 0; 1; 1; 1; 1; 1; 1] ∧
    codingBases self "A" 2 (Some 9) = Ok 6.
Proof.
  eexists. split; [vm_compute; reflexivity|].
  split; vm_compute; reflexivity.
Qed.

(** C4, on the table with the genes 0..2 and 5..7: the last coding base is
    7, the mask has the 7 entries of the positions 0..6, and [codingBases]
    over 0..8 is 5. *)
Theorem disjoint_counts_five :
  ∃ self,
    new (one_file gff_0_2_5_7) "genes.gff" = Ok self ∧
    lastCodingBase self !! "A" = Some 7 ∧
    codingBaseMasks self !! "A" = Some [1; 1; 1; 0; 0; 1; 1] ∧
    codingBases self "A" 0 (Some 8) = Ok 5.
Proof.
  eexists. split; [vm_compute; reflexivity|].
  repeat split; vm_compute; reflexivity.
Qed.

End tables.

(** ** What the mask holds *)

Section mask.
Import ProdigalGeneFeatureParser.

(** For coordinates that are not negative, the filled slice is the part of
    the interval below the length of the array. *)
Lemma in_fill_covers (n : Z) (pos : Z * Z) (k : nat) :
  0 ≤ pos.1 → 0 ≤ pos.2 → Z.of_nat k < n →
  in_fill n pos k ↔ covers pos (Z.of_nat k).
Proof.
  intros H1 H2 Hk. unfold in_fill, covers.
  rewrite !slice_bound_nonneg by lia. lia.
Qed.

Lemma fill_genes_lookup (seqGenes : gmap string (Z * Z)) (mask0 : list Z) :
  let mask := map_fold (λ _ pos mask, Py.slice_fill mask pos.1 (pos.2 + 1) 1)
                mask0 seqGenes in
  ∀ k x, mask !! k = Some x →
    (x = 1 ↔ mask0 !! k = Some 1 ∨
             ∃ geneId pos, seqGenes !! geneId = Some pos ∧
                           in_fill (Z.of_nat (length mask0)) pos k).
Proof.
  simpl.
  cut (let mask := map_fold (λ _ pos mask, Py.slice_fill mask pos.1 (pos.2 + 1) 1)
                     mask0 seqGenes in
       length mask = length mask0 ∧
       ∀ k x, mask !! k = Some x →
         (x = 1 ↔ mask0 !! k = Some 1 ∨
                  ∃ geneId pos, seqGenes !! geneId = Some pos ∧
                                in_fill (Z.of_nat (length mask0)) pos k)).
  { intros [_ H]. exact H. }
  apply (map_fold_weak_ind (λ mask (m : gmap string (Z * Z)),
    length mask = length mask0 ∧
    ∀ k x, mask !! k = Some x →
      (x = 1 ↔ mask0 !! k = Some 1 ∨
               ∃ geneId pos, m !! geneId = Some pos ∧
                             in_fill (Z.of_nat (length mask0)) pos k))).
  - split; [done|]. intros k x Hk. split.
    + intros ->. by left.
    + intros [H|(g & pos & H & _)]; [congruence|by rewrite lookup_empty in H].
  - intros i pos m r Hfresh [Hlen IH]. split; [by rewrite length_slice_fill|].
    intros k x. rewrite lookup_slice_fill, Hlen.
    destruct (r !! k) as [y|] eqn:Hy; simpl; [|done].
    intros [= <-]. case_bool_decide as Hin.
    + split; [|done]. intros _. right. exists i, pos.
      by rewrite lookup_insert_eq.
    + rewrite (IH k y Hy). apply or_iff_compat_l. split.
      * intros (g & pos' & Hg & Hfill). exists g, pos'. split; [|done].
        rewrite lookup_insert_ne; [done|]. intros ->. congruence.
      * intros (g & pos' & Hg & Hfill). exists g, pos'. split; [|done].
        destruct (decide (i = g)) as [<-|Hne].
        -- rewrite lookup_insert_eq in Hg. injection Hg as <-. done.
        -- by rewrite lookup_insert_ne in Hg.
Qed.

(** The mask of a constructed parser has as many entries as the last coding
    base of the sequence says (one for each of the positions below it), each
    0 or 1; and, the stored coordinates not being negative, the entry of a
    position is 1 exactly when an interval stored for the sequence covers
    it. *)
Theorem mask_marks_stored_intervals fs filename self seqId seqGenes :
  new fs filename = Ok self →
  genes self !! seqId = Some seqGenes →
  (∀ geneId pos, seqGenes !! geneId = Some pos → 0 ≤ pos.1 ∧ 0 ≤ pos.2) →
  ∃ n mask,
    lastCodingBase self !! seqId = Some n ∧
    codingBaseMasks self !! seqId = Some mask ∧
    Z.of_nat (length mask) = n ∧ Forall bit mask ∧
    ∀ k : nat,
      mask !! k = Some 1 ↔
      Z.of_nat k < n ∧
      ∃ geneId pos, seqGenes !! geneId = Some pos ∧ covers pos (Z.of_nat k).
Proof.
  intros Hnew Hg Hpos.
  destruct (constructed_inv self seqId)
    as (n & mask & Hn & Hn0 & Hm & Hbuild & Hlen & Hbit);
    [by exists fs, filename|by eexists|].
  exists n, mask. repeat (split; [done|]).
  unfold buildCodingBaseMask in Hbuild. rewrite Hn, Hg in Hbuild.
  simpl in Hbuild. rewrite zeros_Ok in Hbuild by done. simpl in Hbuild.
  injection Hbuild as Hbuild.
  pose proof (fill_genes_lookup seqGenes (replicate (Z.to_nat n) 0)) as Hlook.
  simpl in Hlook. rewrite Hbuild, length_replicate, Z2Nat.id in Hlook by done.
  intros k. split.
  - intros Hk. assert (Z.of_nat k < n) as Hlt.
    { apply lookup_lt_Some in Hk. lia. }
    split; [done|].
    destruct (proj1 (Hlook k 1 Hk) eq_refl) as [H0|(g & pos & Hgp & Hfill)].
    + apply lookup_replicate in H0 as [[=] _].
    + exists g, pos. split; [done|].
      destruct (Hpos g pos Hgp). by apply (in_fill_covers n).
  - intros (Hlt & g & pos & Hgp & Hcov).
    destruct (lookup_lt_is_Some_2 mask k) as [x Hx]; [lia|].
    rewrite Hx. f_equal. apply (Hlook k x Hx). right.
    exists g, pos. split; [done|].
    destruct (Hpos g pos Hgp). by apply (in_fill_covers n).
Qed.

Lemma mask_marks_stored_intervals_witness :
  ∃ self, new (one_file gff_2_5_4_8) "genes.gff" = Ok self ∧
    ∃ n mask,
      lastCodingBase self !! "A" = Some n ∧
      codingBaseMasks self !! "A" = Some mask ∧
      Z.of_nat (length mask) = n ∧ Forall bit mask ∧
      ∀ k : nat,
        mask !! k = Some 1 ↔
        Z.of_nat k < n ∧
        ∃ geneId pos,
          ({[ "A_0" := (2, 5); "A_1" := (4, 8) ]} : gmap string (Z * Z)) !! geneId
          = Some pos ∧ covers pos (Z.of_nat k).
Proof.
  eexists. split; [vm_compute; reflexivity|].
  apply (mask_marks_stored_intervals (one_file gff_2_5_4_8) "genes.gff").
  - vm_compute. reflexivity.
  - vm_compute. reflexivity.
  - intros geneId pos Hpos.
    destruct (decide (geneId = "A_0")) as [->|H0].
    { vm_compute in Hpos. injection Hpos as <-. simpl. lia. }
    destruct (decide (geneId = "A_1")) as [->|H1].
    { vm_compute in Hpos. injection Hpos as <-. simpl. lia. }
    rewrite lookup_insert_ne, lookup_singleton_ne in Hpos by done. done.
Defined.

End mask.

(** ** Which sequences have genes *)

Section recorded.
Import ProdigalGeneFeatureParser.

Lemma parseGFF_line_recorded st line st' seqId :
  parseGFF_line st line = Ok st' →
  is_Some (st_genes st' !! seqId) ↔
  is_Some (st_genes st !! seqId) ∨ names_sequence seqId line.
Proof.
  unfold parseGFF_line. intros H. inv_ok H.
  destruct (Ascii.eqb_spec x "#") as [->|Hc].
  { injection H as <-. split; [by left|]. intros [|(c & Hc & Hne & _)]; [done|].
    congruence. }
  inv_ok H. subst st'. simpl.
  destruct (decide (x0 = seqId)) as [->|Hne].
  - rewrite lookup_insert_eq. split; [|by eexists].
    intros _. right. by exists x.
  - rewrite lookup_insert_ne by done.
    assert (st_genes (enter_sequence st x0) !! seqId = st_genes st !! seqId) as ->.
    { unfold enter_sequence. destruct (st_genes st !! x0); [done|]. simpl.
      by rewrite lookup_insert_ne. }
    split; [by left|]. intros [|(c & _ & _ & Hitem)]; [done|]. congruence.
Qed.

Lemma parseGFF_recorded lines : ∀ st st' seqId,
  parseGFF st lines = Ok st' →
  is_Some (st_genes st' !! seqId) ↔
  is_Some (st_genes st !! seqId) ∨ ∃ line, line ∈ lines ∧ names_sequence seqId line.
Proof.
  unfold parseGFF.
  induction lines as [|line lines IH]; intros st st' seqId Hrun; simpl in Hrun.
  - injection Hrun as <-. split; [by left|].
    intros [|(line & Hin & _)]; [done|]. by apply elem_of_nil in Hin.
  - apply bind_Ok in Hrun as (st1 & Hline & Hrun).
    rewrite (IH _ _ seqId Hrun), (parseGFF_line_recorded _ _ _ seqId Hline).
    split.
    + intros [[|Hn]|(l & Hin & Hn)]; [by left| |].
      * right. exists line. split; [by left|done].
      * right. exists l. split; [by right|done].
    + intros [|(l & Hin & Hn)]; [by left; left|].
      apply elem_of_cons in Hin as [->|Hin]; [by left; right|].
      right. by exists l.
Qed.

(** The sequences with recorded genes are those that a line of the feature
    file, not a comment, names in its first column. *)
Theorem genes_recorded fs filename contents self seqId :
  fs !! filename = Some contents →
  new fs filename = Ok self →
  is_Some (genes self !! seqId) ↔
  ∃ line, line ∈ Py.readlines contents ∧ names_sequence seqId line.
Proof.
  intros Hfile Hnew. unfold new, open in Hnew. rewrite Hfile in Hnew.
  inv_ok Hnew. subst self. simpl. injection Hx0 as <-.
  rewrite (parseGFF_recorded _ _ _ seqId Hx1). simpl. rewrite lookup_empty.
  split; [|by right]. intros [[? [=]]|]; done.
Qed.

Lemma genes_recorded_witness :
  ∃ self, new (one_file gff_2_5) "genes.gff" = Ok self ∧
    (is_Some (genes self !! "A") ↔
     ∃ line, line ∈ Py.readlines gff_2_5 ∧ names_sequence "A" line).
Proof.
  eexists. split; [vm_compute; reflexivity|].
  apply (genes_recorded (one_file gff_2_5) "genes.gff"); vm_compute; reflexivity.
Defined.

(** A negative [end] counts from the end of the mask: here the range from 0
    to -1 is all of the mask but its last entry, though [start >= end]. *)
Example codingBases_negative_end :
  ∃ self, new (one_file gff_2_5_4_8) "genes.gff" = Ok self ∧
          codingBases self "A" 0 (Some (-1)) = Ok 5.
Proof. eexists. split; vm_compute; reflexivity. Qed.

End recorded.

(** ** Loops that may raise *)

Section for_each_result.
Context {S X : Type} (body : S → X → result S).
Context (admissible ok : X → Prop) (expected : error → Prop) (inv : S → Prop).

(** If each iteration either accepts its element and keeps the invariant, or
    raises an expected exception on an element that is not acceptable, then
    so does the loop on the whole list. *)
Lemma for_each_result :
  (∀ st x, inv st → admissible x →
     match body st x with
     | Ok st' => ok x ∧ inv st'
     | Raise e => expected e ∧ ¬ ok x
     end) →
  ∀ xs st, inv st → Forall admissible xs →
    match for_each body st xs with
    | Ok st' => Forall ok xs ∧ inv st'
    | Raise e => expected e ∧ ¬ Forall ok xs
    end.
Proof.
  intros Hbody. induction xs as [|x xs IH]; intros st Hinv Hadm; simpl; [done|].
  apply Forall_cons in Hadm as [Hx Hadm].
  specialize (Hbody st x Hinv Hx).
  destruct (body st x) as [st1|e]; simpl.
  - destruct Hbody as [Hok Hinv1]. specialize (IH st1 Hinv1 Hadm).
    destruct (for_each body st1 xs) as [st'|e].
    + destruct IH. split; [by constructor|done].
    + destruct IH as [He Hnot]. split; [done|].
      intros [_ ?]%Forall_cons. by apply Hnot.
  - destruct Hbody as [He Hnot]. split; [done|].
    intros [? _]%Forall_cons. by apply Hnot.
Qed.
End for_each_result.

(** ** One iteration of [__parseGFF], case by case *)

Section parse_step.
Import ProdigalGeneFeatureParser.


Lemma readlines_nonempty (s : string) (line : string) :
  line ∈ Py.readlines s → line ≠ "".
Proof.
  revert line. induction s as [|c s IH]; intros line; simpl.
  - by intros ?%elem_of_nil.
  - destruct (Ascii.eqb c Py.LF).
    + intros [->|Hin]%elem_of_cons; [done|by apply IH].
    + destruct (Py.readlines s) as [|l ls].
      * by intros [->|?%elem_of_nil]%elem_of_cons.
      * intros [->|Hin]%elem_of_cons; [done|]. apply IH. by right.
Qed.

(** A successful iteration skipped a comment or stored a record. *)
Lemma parseGFF_line_Ok st line st' :
  parseGFF_line st line = Ok st' →
  (is_comment line = true ∧ st' = st) ∨
  ∃ seqId pos geneCounter seqGenes last,
    is_comment line = false ∧
    gff_record line = Some (seqId, pos) ∧
    st_geneCounter (enter_sequence st seqId) = Some geneCounter ∧
    st_genes (enter_sequence st seqId) !! seqId = Some seqGenes ∧
    st_lastCodingBase (enter_sequence st seqId) !! seqId = Some last ∧
    st' = store_record st seqId pos geneCounter seqGenes last.
Proof.
  unfold parseGFF_line. intros H.
  apply bind_Ok in H as (c & Hc & H).
  destruct line as [|c' rest]; [done|]. injection Hc as ->.
  unfold is_comment.
  destruct (Ascii.eqb c "#"); [left; by injection H as <-|]. right.
  apply bind_Ok in H as (seqId & Hid & H).
  apply bind_Ok in H as (geneCounter & Hcnt%or_raise_Ok & H).
  apply bind_Ok in H as (f3 & Hf3 & H).
  apply bind_Ok in H as (start & Hstart & H).
  apply bind_Ok in H as (f4 & Hf4 & H).
  apply bind_Ok in H as (end_ & Hend & H).
  apply bind_Ok in H as (seqGenes & Hgenes%or_raise_Ok & H).
  apply bind_Ok in H as (last & Hlast%or_raise_Ok & H).
  injection H as <-.
  apply or_raise_Ok in Hid, Hf3, Hf4.
  exists seqId, (start, end_), geneCounter, seqGenes, last.
  split; [done|]. unfold gff_record. by rewrite Hid, Hf3, Hf4, Hstart, Hend.
Qed.

Lemma bind_ret {A B} (a : A) (k : A → result B) : (Ok a ≫= k) = k a.
Proof. done. Qed.


Lemma int_Raise (s : string) (e : error) : Py.int s = Raise e → e = ValueError.
Proof.
  unfold Py.int. generalize (match Py.rstrip (Py.lstrip s) with
                             | String "-"%char d => Z.opp <$> Py.unsigned d
                             | String "+"%char d => Py.unsigned d
                             | t => Py.unsigned t
                             end).
  intros [z|]; simpl; congruence.
Qed.







End parse_step.

(** ** Which protein files [genePositions] reads *)

Section genePositions_result.
Import ProdigalFastaParser.

Lemma genePositions_line_result gp line :
  line ≠ "" →
  match genePositions_line gp line with
  | Ok _ => faa_line_ok line
  | Raise e => (e = IndexError ∨ e = ValueError) ∧ ¬ faa_line_ok line
  end.
Proof.
  intros Hne. destruct line as [|c rest]; [done|].
  unfold genePositions_line, faa_line_ok, header_entry.
  change (Py.head (String c rest)) with (Ok c). rewrite bind_ret.
  change (Py.tail (String c rest)) with rest.
  destruct (Ascii.eqb c ">"); [|by left].
  unfold Py.item.
  destruct (Py.split rest !! 0%nat) as [geneId|]; simpl;
    [|split; [by left|]; by intros [[=]|[? [=]]]].
  destruct (Py.split rest !! 2%nat) as [a|]; simpl;
    [|split; [by left|]; by intros [[=]|[? [=]]]].
  destruct (Py.int a) as [startPos|e] eqn:Ha; simpl.
  2:{ apply int_Raise in Ha as ->. split; [by right|].
      intros [[=]|[? H]]. by destruct (Py.split rest !! 4%nat). }
  destruct (Py.split rest !! 4%nat) as [b|]; simpl;
    [|split; [by left|]; by intros [[=]|[? [=]]]].
  destruct (Py.int b) as [endPos|e] eqn:Hb; simpl.
  2:{ apply int_Raise in Hb as ->. split; [by right|]. by intros [[=]|[? [=]]]. }
  right. by eexists.
Qed.

(** [genePositions] returns a dictionary exactly for a file of which every
    line that begins with [>] has at least five tokens, the third and the
    fifth integers; on any other file that exists it raises [IndexError]
    (a token is missing) or [ValueError] (a coordinate is no integer). *)
Theorem genePositions_succeeds_iff fs filename contents :
  fs !! filename = Some contents →
  ((∃ gp, genePositions fs filename = Ok gp) ↔
   Forall faa_line_ok (Py.readlines contents)) ∧
  (∀ e, genePositions fs filename = Raise e → e = IndexError ∨ e = ValueError).
Proof.
  intros Hfile. unfold genePositions, checkFileExists, open. rewrite Hfile. simpl.
  pose proof (for_each_result genePositions_line (λ line, line ≠ "") faa_line_ok
                (λ e, e = IndexError ∨ e = ValueError) (λ _, True)) as Hres.
  assert (∀ gp line, True → line ≠ "" →
            match genePositions_line gp line with
            | Ok _ => faa_line_ok line ∧ True
            | Raise e => (e = IndexError ∨ e = ValueError) ∧ ¬ faa_line_ok line
            end) as Hbody.
  { intros gp line _ Hne.
    pose proof (genePositions_line_result gp line Hne) as Hline.
    by destruct (genePositions_line gp line). }
  specialize (Hres Hbody).
  specialize (Hres (Py.readlines contents) ∅ I).
  destruct (for_each genePositions_line ∅ (Py.readlines contents)) as [gp|e].
  - destruct Hres as [Hlines _].
    { apply Forall_forall. intros line. apply readlines_nonempty. }
    split; [|done]. split; [done|]. by eexists.
  - destruct Hres as [He Hnot].
    { apply Forall_forall. intros line. apply readlines_nonempty. }
    split; [|by intros ? [= <-]]. split; [by intros [? [=]]|done].
Qed.

End genePositions_result.

(** ** What [__parseGFF] has stored after a prefix of the file *)

Section prefix.
Context {S X : Type} (body : S → X → result S).

Lemma for_each_app (xs ys : list X) (st : S) :
  for_each body st (xs ++ ys) = (st' ← for_each body st xs; for_each body st' ys).
Proof.
  revert st. induction xs as [|x xs IH]; intros st; simpl; [done|].
  destruct (body st x) as [st1|e]; simpl; [apply IH | done].
Qed.

(** A property of the lines read so far and the state, kept by every
    iteration, holds of all lines and the final state. *)
Lemma for_each_prefix (P : list X → S → Prop) (st0 : S) :
  P [] st0 →
  (∀ xs x st st', P xs st → body st x = Ok st' → P (xs ++ [x])%list st') →
  ∀ xs st', for_each body st0 xs = Ok st' → P xs st'.
Proof.
  intros Hnil Hstep. induction xs as [|x xs IH] using rev_ind; intros st' Hrun.
  - by injection Hrun as <-.
  - rewrite for_each_app in Hrun. apply bind_Ok in Hrun as (st & Hxs & Hx).
    simpl in Hx. apply bind_Ok in Hx as (st1 & Hx & [= <-]).
    eapply Hstep; [by apply IH|done].
Qed.
End prefix.

Section stored.
Import ProdigalGeneFeatureParser.
Local Open Scope list_scope.

Lemma gff_records_snoc lines line :
  gff_records (lines ++ [line]) =
  gff_records lines ++
  (if is_comment line then [] else option_list (gff_record line)).
Proof.
  unfold gff_records. rewrite omap_app. f_equal. simpl.
  destruct (is_comment line); [done|]. by destruct (gff_record line).
Qed.

Lemma intervals_of_snoc seqId recs r :
  intervals_of seqId (recs ++ [r]) =
  intervals_of seqId recs ++ (if decide (r.1 = seqId) then [r.2] else []).
Proof.
  unfold intervals_of. rewrite omap_app. f_equal. simpl. by case_decide.
Qed.

Lemma intervals_of_nil seqId recs :
  intervals_of seqId recs = [] ↔ seqId ∉ recs.*1.
Proof.
  induction recs as [|r recs IH]; simpl.
  - split; [intros _ ?%elem_of_nil|]; done.
  - unfold intervals_of in *. simpl. rewrite not_elem_of_cons.
    case_decide as Hr; simpl.
    + split; [done|]. by intros [? _].
    + rewrite IH. split; [|by intros [_ ?]]. intros ?. split; [congruence|done].
Qed.

Lemma max_end_snoc ivs pos : max_end (ivs ++ [pos]) = Z.max (max_end ivs) pos.2.
Proof. unfold max_end. by rewrite foldl_app. Qed.

(** The running maximum is the largest end coordinate, or 0 when none is
    positive. *)
Lemma max_end_spec ivs :
  0 ≤ max_end ivs ∧
  (∀ pos, pos ∈ ivs → pos.2 ≤ max_end ivs) ∧
  (max_end ivs = 0 ∨ ∃ pos, pos ∈ ivs ∧ pos.2 = max_end ivs).
Proof.
  induction ivs as [|pos ivs (H0 & Hle & Hmax)] using rev_ind.
  - split; [done|]. split; [by intros ? ?%elem_of_nil|by left].
  - rewrite max_end_snoc. split; [lia|]. split.
    + intros p [Hp|Hp]%elem_of_app.
      * specialize (Hle p Hp). lia.
      * apply list_elem_of_singleton in Hp as ->. lia.
    + destruct (Z.max_spec (max_end ivs) pos.2) as [[_ ->]|[_ ->]].
      * right. exists pos. split; [|done]. apply elem_of_app. right. by left.
      * destruct Hmax as [?|(p & Hp & ?)]; [by left|].
        right. exists p. split; [|done]. apply elem_of_app. by left.
Qed.

Lemma store_record_same st seqId pos c g l :
  st_genes (store_record st seqId pos c g l) !! seqId
  = Some (<[gene_name seqId c := pos]> g) ∧
  st_lastCodingBase (store_record st seqId pos c g l) !! seqId
  = Some (Z.max l pos.2).
Proof. unfold store_record. simpl. by rewrite !lookup_insert_eq. Qed.

Lemma store_record_other st seqId pos c g l seqId' :
  seqId ≠ seqId' →
  st_genes (store_record st seqId pos c g l) !! seqId' = st_genes st !! seqId' ∧
  st_lastCodingBase (store_record st seqId pos c g l) !! seqId'
  = st_lastCodingBase st !! seqId'.
Proof.
  intros Hne. unfold store_record, enter_sequence. simpl.
  rewrite !lookup_insert_ne by done.
  destruct (st_genes st !! seqId); [done|]. simpl.
  by rewrite !lookup_insert_ne.
Qed.

Lemma parseGFF_line_stored lines line st st' :
  stored_ok lines st → parseGFF_line st line = Ok st' →
  stored_ok (lines ++ [line]) st'.
Proof.
  intros Hst Hline seqId. cbv zeta. rewrite gff_records_snoc.
  destruct (Hst seqId) as [Hgenes Hlast].
  apply parseGFF_line_Ok in Hline
    as [[-> ->]|(s & pos & c & g & l & -> & -> & _ & _ & Hl & ->)].
  { by rewrite app_nil_r. }
  change (option_list (Some (s, pos))) with [(s, pos)].
  rewrite intervals_of_snoc. cbn [fst snd].
  case_decide as Hs.
  - subst seqId. destruct (store_record_same st s pos c g l) as [-> ->].
    assert (l = max_end (intervals_of s (gff_records lines))) as ->.
    { unfold enter_sequence in Hl.
      destruct (st_genes st !! s) eqn:Hg.
      - rewrite Hlast in Hl.
        destruct (intervals_of s (gff_records lines)); [done|congruence].
      - simpl in Hl. rewrite lookup_insert_eq in Hl. injection Hl as <-.
        by rewrite (proj1 Hgenes eq_refl). }
    rewrite <- max_end_snoc.
    destruct (intervals_of s (gff_records lines) ++ [pos]) eqn:Happ.
    + by apply app_nil in Happ as [_ [=]].
    + done.
  - destruct (store_record_other st s pos c g l seqId Hs) as [-> ->].
    rewrite app_nil_r. done.
Qed.

Lemma parseGFF_stored lines st :
  parseGFF initial lines = Ok st → stored_ok lines st.
Proof.
  apply (for_each_prefix parseGFF_line stored_ok).
  - intros seqId. simpl. by rewrite !lookup_empty.
  - intros. by eapply parseGFF_line_stored.
Qed.

(** The last coding base of a sequence is the largest end coordinate among
    all lines of the file that name the sequence, those whose gene was later
    replaced included, or 0 when none is positive. *)
Theorem lastCodingBase_is_max fs filename contents self seqId n :
  fs !! filename = Some contents →
  new fs filename = Ok self →
  lastCodingBase self !! seqId = Some n →
  let ivs := intervals_of seqId (gff_records (Py.readlines contents)) in
  ivs ≠ [] ∧ 0 ≤ n ∧
  (∀ pos, pos ∈ ivs → pos.2 ≤ n) ∧
  (n = 0 ∨ ∃ pos, pos ∈ ivs ∧ pos.2 = n).
Proof.
  intros Hfile Hnew Hn. unfold new, checkFileExists, open in Hnew.
  rewrite Hfile in Hnew.
  simpl in Hnew. apply bind_Ok in Hnew as (st & Hrun & Hnew).
  apply bind_Ok in Hnew as (masks & _ & Hself). injection Hself as <-.
  simpl in Hn.
  destruct (parseGFF_stored _ _ Hrun seqId) as [_ Hlast]. rewrite Hn in Hlast.
  simpl. destruct (intervals_of seqId _) as [|pos ivs] eqn:Hivs; [done|].
  injection Hlast as ->. split; [done|]. apply max_end_spec.
Qed.

End stored.

(** ** Gene identifiers *)

Section gene_names.
Local Open Scope list_scope.

Lemma str_inj (i j : nat) : Py.str i = Py.str j → i = j.
Proof.
  unfold Py.str. intros Heq.
  assert (∀ n, Nat.of_uint <$> NilZero.uint_of_string
                 (NilZero.string_of_uint (Nat.to_uint n)) = Some n) as Hdec.
  { intros n. destruct (Nat.to_uint n) eqn:Hn;
      [rewrite NilZero.usu_nil|rewrite NilZero.usu by done..]; simpl;
      rewrite <- (DecimalNat.Unsigned.of_to n), Hn; done. }
  pose proof (Hdec i) as Hi. rewrite Heq, Hdec in Hi. congruence.
Qed.

Lemma gene_name_inj (seqId : string) (i j : nat) :
  gene_name seqId i = gene_name seqId j → i = j.
Proof.
  unfold gene_name. intros Heq. apply str_inj.
  by do 2 apply (inj (String.append _)) in Heq.
Qed.

Lemma numbered_keys seqId (ivs : list (Z * Z)) geneId :
  geneId ∈ (imap (λ i pos, (gene_name seqId i, pos)) ivs).*1 →
  ∃ i, (i < length ivs)%nat ∧ geneId = gene_name seqId i.
Proof.
  intros ([k pos] & -> & Hin)%list_elem_of_fmap.
  apply elem_of_lookup_imap in Hin as (i & p & [= -> ->] & Hi).
  exists i. split; [by eapply lookup_lt_Some|done].
Qed.

Lemma numbered_snoc seqId ivs pos :
  numbered seqId (ivs ++ [pos])
  = <[gene_name seqId (length ivs) := pos]> (numbered seqId ivs).
Proof.
  unfold numbered. rewrite imap_app. simpl.
  replace (length ivs + 0)%nat with (length ivs) by lia.
  apply list_to_map_snoc.
  intros (i & Hi & Heq%gene_name_inj)%numbered_keys. lia.
Qed.

(** Gene [i] of a sequence is its [i]-th interval, and there are no other
    genes. *)
Lemma numbered_lookup seqId ivs i :
  numbered seqId ivs !! gene_name seqId i = ivs !! i.
Proof.
  induction ivs as [|pos ivs IH] using rev_ind; [done|].
  rewrite numbered_snoc. destruct (decide (i = length ivs)) as [->|Hne].
  - rewrite lookup_insert_eq. by rewrite list_lookup_middle.
  - rewrite lookup_insert_ne by (by intros ?%gene_name_inj).
    rewrite IH. destruct (decide (i < length ivs)%nat).
    + by rewrite lookup_app_l.
    + rewrite !lookup_ge_None_2; [done|rewrite length_app; simpl; lia|lia].
Qed.

Lemma numbered_size seqId ivs : size (numbered seqId ivs) = length ivs.
Proof.
  induction ivs as [|pos ivs IH] using rev_ind; [done|].
  rewrite numbered_snoc, map_size_insert_None, IH, length_app; [simpl; lia|].
  rewrite numbered_lookup. apply lookup_ge_None_2. lia.
Qed.

Lemma numbered_Some seqId ivs geneId pos :
  numbered seqId ivs !! geneId = Some pos → pos ∈ ivs.
Proof.
  intros Hin%elem_of_list_to_map_2.
  apply elem_of_lookup_imap in Hin as (i & p & [= -> ->] & Hi).
  by eapply list_elem_of_lookup_2.
Qed.

Lemma contiguous_snoc (ids : list string) (x : string) :
  contiguous (ids ++ [x]) →
  contiguous ids ∧ (x ∈ ids → last ids = Some x).
Proof.
  intros Hc. split.
  - intros i j k y Hijk Hi Hk.
    assert (k < length ids)%nat by by eapply lookup_lt_Some.
    specialize (Hc i j k y Hijk). rewrite !lookup_app_l in Hc by lia. auto.
  - intros (i & Hi)%list_elem_of_lookup_1.
    assert (i < length ids)%nat by by eapply lookup_lt_Some.
    rewrite last_lookup.
    specialize (Hc i (pred (length ids)) (length ids) x).
    rewrite (list_lookup_middle ids [] x (length ids) eq_refl) in Hc.
    rewrite (lookup_app_l ids [x] i) in Hc by lia.
    rewrite (lookup_app_l ids [x] (pred (length ids))) in Hc by lia.
    apply Hc; [lia|done|done].
Qed.

End gene_names.

(** ** Files whose records are contiguous *)

Section contiguous_files.
Import ProdigalGeneFeatureParser.
Local Open Scope list_scope.

Lemma new_Ok_inv fs filename contents self :
  fs !! filename = Some contents →
  new fs filename = Ok self →
  ∃ st masks,
    parseGFF initial (Py.readlines contents) = Ok st ∧
    buildMasks (st_genes st) (st_lastCodingBase st) = Ok masks ∧
    self = Parser (st_genes st) (st_lastCodingBase st) masks.
Proof.
  intros Hfile Hnew. unfold new, checkFileExists, open in Hnew.
  rewrite Hfile in Hnew. simpl in Hnew.
  apply bind_Ok in Hnew as (st & Hrun & Hnew).
  apply bind_Ok in Hnew as (masks & Hmasks & Hself). injection Hself as <-.
  by exists st, masks.
Qed.

Lemma new_Ok_file fs filename self :
  new fs filename = Ok self → ∃ contents, fs !! filename = Some contents.
Proof.
  unfold new, checkFileExists. destruct (fs !! filename); [by eexists|done].
Qed.

(** When the sequence of a record is entered, its genes so far are its
    intervals so far, numbered, and the counter is their number. *)
Lemma enter_sequence_numbered lines st s c g :
  numbered_ok lines st →
  (s ∈ (gff_records lines).*1 → last (gff_records lines).*1 = Some s) →
  st_geneCounter (enter_sequence st s) = Some c →
  st_genes (enter_sequence st s) !! s = Some g →
  g = numbered s (intervals_of s (gff_records lines)) ∧
  c = length (intervals_of s (gff_records lines)).
Proof.
  intros [Hgenes Hcnt] Hlast Hc Hg. unfold enter_sequence in Hc, Hg.
  specialize (Hgenes s).
  destruct (st_genes st !! s) as [g0|] eqn:Hgs.
  - simpl in Hc, Hg. rewrite Hgs in Hg. injection Hg as ->.
    destruct (intervals_of s (gff_records lines)) as [|pos ivs] eqn:Hivs;
      [done|].
    injection Hgenes as ->. split; [done|].
    rewrite (Hcnt s) in Hc.
    + rewrite Hivs in Hc. by injection Hc as <-.
    + apply Hlast. apply dec_stable. intros Hnot%intervals_of_nil. congruence.
  - simpl in Hc, Hg. rewrite lookup_insert_eq in Hg.
    injection Hc as <-. injection Hg as <-.
    by destruct (intervals_of s (gff_records lines)).
Qed.

Lemma parseGFF_line_numbered lines line st st' :
  (contiguous (gff_records lines).*1 → numbered_ok lines st) →
  parseGFF_line st line = Ok st' →
  contiguous (gff_records (lines ++ [line])).*1 →
  numbered_ok (lines ++ [line]) st'.
Proof.
  intros Hst Hline. unfold numbered_ok. rewrite gff_records_snoc.
  apply parseGFF_line_Ok in Hline
    as [[-> ->]|(s & pos & c & g & l & -> & -> & Hc & Hg & _ & ->)].
  { rewrite app_nil_r. apply Hst. }
  change (option_list (Some (s, pos))) with [(s, pos)]. rewrite fmap_app.
  intros [Hcont Hlast]%contiguous_snoc. specialize (Hst Hcont).
  destruct (enter_sequence_numbered lines st s c g Hst Hlast Hc Hg) as [-> ->].
  cbv zeta. split.
  - intros seqId. rewrite intervals_of_snoc. cbn [fst snd].
    case_decide as Hs.
    + subst seqId.
      rewrite (proj1 (store_record_same st s pos _ _ l)), <- numbered_snoc.
      destruct (intervals_of s (gff_records lines) ++ [pos]) eqn:Happ; [|done].
      by apply app_nil in Happ as [_ [=]].
    + rewrite (proj1 (store_record_other st s pos _ _ l seqId Hs)), app_nil_r.
      apply Hst.
  - intros seqId. simpl. rewrite last_snoc. intros [= <-].
    rewrite intervals_of_snoc. cbn [fst snd]. rewrite decide_True by done.
    rewrite length_app. simpl. f_equal. lia.
Qed.

Lemma parseGFF_numbered lines st :
  parseGFF initial lines = Ok st →
  contiguous (gff_records lines).*1 → numbered_ok lines st.
Proof.
  apply (for_each_prefix parseGFF_line
           (λ lines st, contiguous (gff_records lines).*1 → numbered_ok lines st)).
  - intros _. split; [intros seqId; simpl; by rewrite lookup_empty|done].
  - intros. by eapply parseGFF_line_numbered.
Qed.

(** On a feature file in which the records of every sequence stand
    together, no gene is lost: the genes of a sequence are the intervals of
    its lines, gene [seqId_i] being that of its [i]-th line, and there are
    as many genes as lines. *)
Theorem contiguous_file_keeps_every_gene fs filename contents self seqId g :
  fs !! filename = Some contents →
  new fs filename = Ok self →
  contiguous (gff_records (Py.readlines contents)).*1 →
  genes self !! seqId = Some g →
  let ivs := intervals_of seqId (gff_records (Py.readlines contents)) in
  g = numbered seqId ivs ∧
  size g = length ivs ∧
  (∀ i, g !! gene_name seqId i = ivs !! i) ∧
  (∀ pos, (∃ geneId, g !! geneId = Some pos) ↔ pos ∈ ivs).
Proof.
  intros Hfile Hnew Hcont Hg.
  destruct (new_Ok_inv _ _ _ _ Hfile Hnew) as (st & masks & Hrun & _ & ->).
  simpl in Hg.
  destruct (parseGFF_numbered _ _ Hrun Hcont) as [Hgenes _].
  rewrite Hgenes in Hg. cbv zeta.
  destruct (intervals_of seqId _) as [|pos0 ivs] eqn:Hivs; [done|].
  injection Hg as <-. split; [done|]. split; [apply numbered_size|].
  split; [apply numbered_lookup|].
  intros pos. split.
  - intros [geneId Hpos]. by eapply numbered_Some.
  - intros (i & Hi)%list_elem_of_lookup_1. exists (gene_name seqId i).
    by rewrite numbered_lookup.
Qed.

End contiguous_files.

(** ** Ranges of [codingBases] *)

Section ranges.
Import ProdigalGeneFeatureParser.
Local Open Scope list_scope.

Lemma sum_app (a b : list Z) : Py.sum (a ++ b) = Py.sum a + Py.sum b.
Proof. induction a as [|x a IH]; simpl; [done|]. rewrite IH. lia. Qed.

Lemma sum_bits_bounds (a : list Z) :
  Forall bit a → 0 ≤ Py.sum a ≤ Z.of_nat (length a).
Proof. induction 1 as [|x a [->| ->] _ IH]; simpl; lia. Qed.

Lemma Forall_slice {A} (P : A → Prop) (a : list A) (i j : Z) :
  Forall P a → Forall P (Py.slice a i j).
Proof. intros H. unfold Py.slice. by apply Forall_take, Forall_drop. Qed.

Lemma length_slice {A} (a : list A) (i j : Z) :
  0 ≤ i → 0 ≤ j →
  Z.of_nat (length (Py.slice a i j))
  = Z.max 0 (Z.min j (Z.of_nat (length a)) - Z.min i (Z.of_nat (length a))).
Proof.
  intros Hi Hj. unfold Py.slice. rewrite !slice_bound_nonneg by lia.
  rewrite length_take, length_drop. lia.
Qed.

(** Two adjoining ranges make up the range from the first start to the
    second end. *)
Lemma slice_adjoin {A} (a : list A) (i j k : Z) :
  0 ≤ i ≤ j → j ≤ k → Py.slice a i j ++ Py.slice a j k = Py.slice a i k.
Proof.
  intros Hij Hjk. unfold Py.slice. rewrite !slice_bound_nonneg by lia.
  set (n := Z.of_nat (length a)).
  replace (Z.to_nat (Z.min j n)) with
    (Z.to_nat (Z.min i n) + Z.to_nat (Z.min j n - Z.min i n))%nat by lia.
  rewrite <- drop_drop, take_take_drop. f_equal. lia.
Qed.

(** A bound at or past the end of the array is the end of the array. *)
Lemma slice_past_end {A} (a : list A) (i j : Z) :
  Z.of_nat (length a) ≤ j → Py.slice a i j = Py.slice a i (Z.of_nat (length a)).
Proof.
  intros Hj. unfold Py.slice.
  rewrite (slice_bound_nonneg _ j), (slice_bound_nonneg _ (Z.of_nat (length a)))
    by lia.
  by replace (Z.min j _) with (Z.min (Z.of_nat (length a)) (Z.of_nat (length a)))
    by lia.
Qed.

(** [codingBases] is additive over adjoining ranges: for
    [0 <= a <= b <= c] the count over [a, c) is the count over [a, b) plus
    the count over [b, c). *)
Theorem codingBases_additive fs filename self seqId a b c :
  new fs filename = Ok self →
  0 ≤ a ≤ b → b ≤ c →
  ∃ x y,
    codingBases self seqId a (Some b) = Ok x ∧
    codingBases self seqId b (Some c) = Ok y ∧
    codingBases self seqId a (Some c) = Ok (x + y).
Proof.
  intros Hnew Hab Hbc.
  destruct (genes self !! seqId) as [seqGenes|] eqn:Hg.
  - destruct (constructed_inv self seqId) as (n & mask & Hn & _ & Hm & _);
      [by exists fs, filename|by eexists|].
    eexists _, _.
    rewrite !(codingBases_eq self seqId seqGenes n mask) by done. simpl.
    split; [done|]. split; [done|].
    by rewrite <- sum_app, slice_adjoin.
  - exists 0, 0. by rewrite !codingBases_no_genes.
Qed.

(** For [0 <= start] and [0 <= end] the count is never negative, never more
    than the number of positions from [start] to [end], and never more than
    the last coding base of the sequence. *)
Theorem codingBases_bounds fs filename self seqId start end_ v :
  new fs filename = Ok self →
  0 ≤ start → 0 ≤ end_ →
  codingBases self seqId start (Some end_) = Ok v →
  0 ≤ v ≤ Z.max 0 (end_ - start) ∧
  (∀ n, lastCodingBase self !! seqId = Some n → v ≤ n).
Proof.
  intros Hnew Hs He Hv.
  destruct (genes self !! seqId) as [seqGenes|] eqn:Hg.
  - destruct (constructed_inv self seqId)
      as (n & mask & Hn & Hn0 & Hm & _ & Hlen & Hbit);
      [by exists fs, filename|by eexists|].
    rewrite (codingBases_eq self seqId seqGenes n mask) in Hv by done.
    injection Hv as <-. simpl.
    pose proof (sum_bits_bounds (Py.slice mask start end_)
                  (Forall_slice _ _ _ _ Hbit)) as Hsum.
    rewrite length_slice in Hsum by done.
    split; [lia|]. intros n' Hn'. rewrite Hn in Hn'. injection Hn' as <-. lia.
  - rewrite codingBases_no_genes in Hv by done. injection Hv as <-.
    split; [lia|]. intros n Hn.
    destruct (new_Ok_file _ _ _ Hnew) as [contents Hfile].
    destruct (new_Ok_inv _ _ _ _ Hfile Hnew) as (st & masks & Hrun & _ & ->).
    simpl in Hg, Hn.
    destruct (parseGFF_stored _ _ Hrun seqId) as [Hnone Hlast].
    rewrite (proj1 Hnone Hg) in Hlast. congruence.
Qed.

(** An [end] at or past the last coding base of the sequence gives what
    leaving [end] out gives: the position of the last coding base itself
    and those after it are never counted. *)
Theorem codingBases_end_clipped fs filename self seqId n start end_ :
  new fs filename = Ok self →
  lastCodingBase self !! seqId = Some n →
  n ≤ end_ →
  codingBases self seqId start (Some end_) = codingBases self seqId start None.
Proof.
  intros Hnew Hn Hend.
  destruct (genes self !! seqId) as [seqGenes|] eqn:Hg.
  - destruct (constructed_inv self seqId)
      as (n' & mask & Hn' & _ & Hm & _ & Hlen & _);
      [by exists fs, filename|by eexists|].
    rewrite Hn in Hn'. injection Hn' as <-.
    rewrite !(codingBases_eq self seqId seqGenes n mask) by done. simpl.
    rewrite <- Hlen in *. by rewrite slice_past_end.
  - by rewrite !codingBases_no_genes.
Qed.

End ranges.

(** ** From the lines of the file to the mask *)

Section file_to_mask.
Import ProdigalGeneFeatureParser.
Local Open Scope list_scope.

(** What [__buildCodingBaseMask] returns for tables that fit and intervals
    without negative coordinates. *)
Lemma buildCodingBaseMask_marks genes lastCodingBase seqId seqGenes n mask :
  lastCodingBase !! seqId = Some n → 0 ≤ n →
  genes !! seqId = Some seqGenes →
  (∀ geneId pos, seqGenes !! geneId = Some pos → 0 ≤ pos.1 ∧ 0 ≤ pos.2) →
  buildCodingBaseMask genes lastCodingBase seqId = Ok mask →
  Z.of_nat (length mask) = n ∧
  ∀ k : nat,
    mask !! k = Some 1 ↔
    Z.of_nat k < n ∧
    ∃ geneId pos, seqGenes !! geneId = Some pos ∧ covers pos (Z.of_nat k).
Proof.
  intros Hn Hn0 Hg Hpos Hbuild. unfold buildCodingBaseMask in Hbuild.
  rewrite Hn, Hg in Hbuild. simpl in Hbuild.
  rewrite zeros_Ok in Hbuild by done. simpl in Hbuild. injection Hbuild as Hbuild.
  destruct (fill_genes_shape seqGenes (replicate (Z.to_nat n) 0)) as [Hlen _].
  { apply Forall_replicate. by left. }
  pose proof (fill_genes_lookup seqGenes (replicate (Z.to_nat n) 0)) as Hlook.
  simpl in Hlook. rewrite Hbuild in Hlen, Hlook.
  rewrite length_replicate in Hlen, Hlook. rewrite Z2Nat.id in Hlook by done.
  split; [lia|]. intros k. split.
  - intros Hk. assert (Z.of_nat k < n) as Hlt.
    { apply lookup_lt_Some in Hk. lia. }
    split; [done|].
    destruct (proj1 (Hlook k 1 Hk) eq_refl) as [H0|(geneId & pos & Hgp & Hfill)].
    + apply lookup_replicate in H0 as [[=] _].
    + exists geneId, pos. split; [done|].
      destruct (Hpos geneId pos Hgp). by apply (in_fill_covers n).
  - intros (Hlt & geneId & pos & Hgp & Hcov).
    destruct (lookup_lt_is_Some_2 mask k) as [x Hx]; [lia|].
    rewrite Hx. f_equal. apply (Hlook k x Hx). right.
    exists geneId, pos. split; [done|].
    destruct (Hpos geneId pos Hgp). by apply (in_fill_covers n).
Qed.

(** On a feature file in which the records of every sequence stand together
    and no coordinate of the sequence is negative, the mask of the sequence
    has one entry for every position below the largest end coordinate [n]
    of its lines, and the entry of a position is 1 exactly when a line of
    the sequence covers it. *)
Theorem contiguous_file_mask fs filename contents self seqId :
  fs !! filename = Some contents →
  new fs filename = Ok self →
  contiguous (gff_records (Py.readlines contents)).*1 →
  let ivs := intervals_of seqId (gff_records (Py.readlines contents)) in
  ivs ≠ [] →
  (∀ pos, pos ∈ ivs → 0 ≤ pos.1 ∧ 0 ≤ pos.2) →
  ∃ mask,
    codingBaseMasks self !! seqId = Some mask ∧
    Z.of_nat (length mask) = max_end ivs ∧
    ∀ k : nat,
      mask !! k = Some 1 ↔
      Z.of_nat k < max_end ivs ∧ ∃ pos, pos ∈ ivs ∧ covers pos (Z.of_nat k).
Proof.
  intros Hfile Hnew Hcont ivs Hivs Hpos.
  destruct (new_Ok_inv _ _ _ _ Hfile Hnew) as (st & masks & Hrun & Hmasks & Hself).
  destruct (parseGFF_numbered _ _ Hrun Hcont) as [Hgenes _].
  destruct (parseGFF_stored _ _ Hrun seqId) as [_ Hlast].
  specialize (Hgenes seqId). fold ivs in Hgenes, Hlast.
  assert (st_genes st !! seqId = Some (numbered seqId ivs)) as Hg.
  { by destruct ivs. }
  assert (st_lastCodingBase st !! seqId = Some (max_end ivs)) as Hn.
  { by destruct ivs. }
  destruct (constructed_inv self seqId) as (n & mask & Hn' & _ & Hm & Hbuild & _);
    [by exists fs, filename|subst self; by eexists|].
  subst self. simpl in *. rewrite Hn in Hn'. injection Hn' as <-.
  exists mask. split; [done|].
  assert (∀ geneId pos, numbered seqId ivs !! geneId = Some pos →
                        0 ≤ pos.1 ∧ 0 ≤ pos.2) as Hstored.
  { intros geneId pos Hin. apply Hpos. by eapply numbered_Some. }
  destruct (buildCodingBaseMask_marks _ _ _ _ _ mask Hn
              (proj1 (max_end_spec ivs)) Hg Hstored Hbuild) as [Hlen Hmarks].
  split; [done|]. intros k. rewrite Hmarks. apply and_iff_compat_l. split.
  - intros (geneId & pos & Hin & Hcov). exists pos. split; [|done].
    by eapply numbered_Some.
  - intros (pos & (i & Hi)%list_elem_of_lookup_1 & Hcov).
    exists (gene_name seqId i), pos. by rewrite numbered_lookup.
Qed.

(** The mask of a sequence whose last coding base [n] is positive has no
    entry for position [n], although a line of the sequence ends there: the
    last base of the gene that reaches furthest is never counted. *)
Theorem last_coding_base_has_no_entry fs filename contents self seqId n :
  fs !! filename = Some contents →
  new fs filename = Ok self →
  lastCodingBase self !! seqId = Some n →
  0 < n →
  ∃ mask pos,
    codingBaseMasks self !! seqId = Some mask ∧
    pos ∈ intervals_of seqId (gff_records (Py.readlines contents)) ∧
    pos.2 = n ∧
    mask !! Z.to_nat n = None.
Proof.
  intros Hfile Hnew Hn Hpos.
  destruct (new_Ok_inv _ _ _ _ Hfile Hnew) as (st & masks & Hrun & Hmasks & Hself).
  destruct (parseGFF_stored _ _ Hrun seqId) as [Hnone Hlast].
  assert (lastCodingBase self !! seqId = st_lastCodingBase st !! seqId) as Hlcb
    by by subst self.
  rewrite Hlcb, Hlast in Hn.
  destruct (intervals_of seqId (gff_records (Py.readlines contents)))
    as [|p ivs] eqn:Hivs; [done|]. injection Hn as Hn.
  destruct (max_end_spec (p :: ivs)) as (_ & _ & [H0|(pos & Hin & Hend)]); [lia|].
  destruct (constructed_inv self seqId) as (n' & mask & Hn' & _ & Hm & _ & Hlen & _);
    [by exists fs, filename| |].
  { subst self. simpl. destruct (st_genes st !! seqId); [by eexists|].
    by specialize (proj1 Hnone eq_refl). }
  rewrite Hlcb, Hlast in Hn'. injection Hn' as Hn'.
  exists mask, pos. split; [done|]. split; [done|]. split; [congruence|].
  apply lookup_ge_None_2. lia.
Qed.

End file_to_mask.

(** ** What holds of every file, contiguous or not *)

Section every_file.
Import ProdigalGeneFeatureParser.
Local Open Scope list_scope.

Lemma parseGFF_line_sound lines line st st' :
  genes_sound lines st → parseGFF_line st line = Ok st' →
  genes_sound (lines ++ [line]) st'.
Proof.
  intros Hst Hline seqId seqGenes geneId p. rewrite gff_records_snoc.
  apply parseGFF_line_Ok in Hline
    as [[-> ->]|(s & pos & c & g & l & -> & -> & _ & Hg & _ & ->)].
  { rewrite app_nil_r. apply Hst. }
  change (option_list (Some (s, pos))) with [(s, pos)].
  rewrite intervals_of_snoc. cbn [fst snd].
  case_decide as Hs.
  - subst seqId. rewrite (proj1 (store_record_same st s pos c g l)).
    intros [= <-]. rewrite elem_of_app, list_elem_of_singleton.
    destruct (decide (gene_name s c = geneId)) as [<-|Hne].
    + rewrite lookup_insert_eq. intros [= <-]. split; [by right|by exists c].
    + rewrite lookup_insert_ne by done. intros Hin.
      unfold enter_sequence in Hg. destruct (st_genes st !! s) eqn:Hgs.
      * rewrite Hgs in Hg. injection Hg as ->.
        destruct (Hst s g geneId p Hgs Hin). split; [by left|done].
      * simpl in Hg. rewrite lookup_insert_eq in Hg. injection Hg as <-.
        by rewrite lookup_empty in Hin.
  - rewrite (proj1 (store_record_other st s pos c g l seqId Hs)), app_nil_r.
    apply Hst.
Qed.

Lemma parseGFF_sound lines st :
  parseGFF initial lines = Ok st → genes_sound lines st.
Proof.
  apply (for_each_prefix parseGFF_line genes_sound).
  - intros seqId seqGenes geneId pos Hg. simpl in Hg. by rewrite lookup_empty in Hg.
  - intros. by eapply parseGFF_line_sound.
Qed.

(** The three dictionaries of a constructed parser have the same keys: a
    sequence has genes exactly when it has a last coding base, and exactly
    when it has a mask. *)
Theorem dictionaries_same_keys fs filename self seqId :
  new fs filename = Ok self →
  (is_Some (lastCodingBase self !! seqId) ↔ is_Some (genes self !! seqId)) ∧
  (is_Some (codingBaseMasks self !! seqId) ↔ is_Some (genes self !! seqId)).
Proof.
  intros Hnew. destruct (new_Ok_file _ _ _ Hnew) as [contents Hfile].
  destruct (new_Ok_inv _ _ _ _ Hfile Hnew) as (st & masks & Hrun & Hmasks & ->).
  simpl. split.
  - destruct (parseGFF_stored _ _ Hrun seqId) as [Hnone ->].
    destruct (intervals_of seqId _) as [|p ivs].
    + rewrite (proj2 Hnone eq_refl). done.
    + destruct (st_genes st !! seqId) as [g|].
      * split; intros _; by eexists.
      * by specialize (proj1 Hnone eq_refl).
  - pose proof (parseGFF_ok _ _ Hrun) as Htab.
    destruct (buildMasks_Ok _ _ Htab) as (masks' & Hmasks' & Hlook).
    rewrite Hmasks in Hmasks'. injection Hmasks' as <-. split.
    + intros [mask Hm]. by apply Hlook in Hm as [? _].
    + intros Hg.
      destruct (buildCodingBaseMask_Ok _ _ seqId Htab Hg)
        as (n & mask & _ & _ & Hbuild & _).
      exists mask. by apply Hlook.
Qed.

(** Every gene that a constructed parser holds for a sequence is the
    interval of a line of that sequence, stored as [seqId_i] for some [i]:
    no gene is made up, and none is filed under another sequence. *)
Theorem stored_genes_sound fs filename contents self seqId seqGenes geneId pos :
  fs !! filename = Some contents →
  new fs filename = Ok self →
  genes self !! seqId = Some seqGenes →
  seqGenes !! geneId = Some pos →
  pos ∈ intervals_of seqId (gff_records (Py.readlines contents)) ∧
  ∃ i, geneId = gene_name seqId i.
Proof.
  intros Hfile Hnew Hg Hpos.
  destruct (new_Ok_inv _ _ _ _ Hfile Hnew) as (st & masks & Hrun & _ & ->).
  by eapply (parseGFF_sound _ _ Hrun).
Qed.

(** The mask never marks a position that no line covers: when no
    coordinate of the sequence is negative, an entry 1 at position [k]
    means that a line of the sequence has [start <= k <= end]. *)
Theorem mask_sound fs filename contents self seqId mask k :
  fs !! filename = Some contents →
  new fs filename = Ok self →
  (∀ pos, pos ∈ intervals_of seqId (gff_records (Py.readlines contents)) →
          0 ≤ pos.1 ∧ 0 ≤ pos.2) →
  codingBaseMasks self !! seqId = Some mask →
  mask !! k = Some 1 →
  ∃ pos, pos ∈ intervals_of seqId (gff_records (Py.readlines contents)) ∧
         covers pos (Z.of_nat k).
Proof.
  intros Hfile Hnew Hpos Hm Hk.
  destruct (new_Ok_inv _ _ _ _ Hfile Hnew) as (st & masks & Hrun & Hmasks & Hself).
  pose proof (parseGFF_ok _ _ Hrun) as Htab.
  pose proof (parseGFF_sound _ _ Hrun) as Hsound.
  destruct (buildMasks_Ok _ _ Htab) as (masks' & Hmasks' & Hlook).
  rewrite Hmasks in Hmasks'. injection Hmasks' as <-.
  subst self. simpl in Hm. apply Hlook in Hm as [[seqGenes Hg] Hbuild].
  destruct (Htab seqId) as (n & Hn & Hn0); [by eexists|].
  destruct (buildCodingBaseMask_marks _ _ _ _ _ mask Hn Hn0 Hg) as [_ Hmarks];
    [|done|].
  { intros geneId pos Hin. apply Hpos. by eapply Hsound. }
  apply Hmarks in Hk as (_ & geneId & pos & Hin & Hcov).
  exists pos. split; [|done]. by eapply Hsound.
Qed.

End every_file.

(** ** The theorems on concrete files *)

Section on_files.
Import ProdigalGeneFeatureParser ProdigalFastaParser.
Local Open Scope list_scope.


(** The header has three tokens only. *)
Lemma genePositions_succeeds_iff_witness :
  genePositions {[ "genes.faa" := faa_short_header ]} "genes.faa"
  = Raise IndexError ∧
  ¬ Forall faa_line_ok (Py.readlines faa_short_header).
Proof.
  split; [vm_compute; reflexivity|]. intros Hlines.
  destruct (genePositions_succeeds_iff {[ "genes.faa" := faa_short_header ]}
              "genes.faa" faa_short_header) as [[_ Hiff] _];
    [vm_compute; reflexivity|].
  destruct (Hiff Hlines) as [gp Hgp]. vm_compute in Hgp. discriminate.
Defined.

(** The second line of A, ending at 20, is replaced, and still counts. *)
Lemma lastCodingBase_is_max_witness :
  let ivs := intervals_of "A" (gff_records (Py.readlines gff_replaced)) in
  ivs ≠ [] ∧ 0 ≤ 20 ∧
  (∀ pos, pos ∈ ivs → pos.2 ≤ 20) ∧
  (20 = 0 ∨ ∃ pos, pos ∈ ivs ∧ pos.2 = 20).
Proof.
  eapply (lastCodingBase_is_max (one_file gff_replaced) "genes.gff" gff_replaced);
    vm_compute; reflexivity.
Defined.

Lemma contiguous_2_5_4_8 :
  contiguous (gff_records (Py.readlines gff_2_5_4_8)).*1.
Proof.
  assert ((gff_records (Py.readlines gff_2_5_4_8)).*1 = ["A"; "A"]) as ->
    by (vm_compute; reflexivity).
  intros i j k x Hijk Hi Hk.
  destruct k as [|[|k]]; [| |done];
    (destruct j as [|[|j]]; [| |lia]);
    (destruct i as [|[|i]]; [| |lia]); simpl in *; congruence.
Qed.

Lemma contiguous_file_keeps_every_gene_witness :
  ∃ self g, new (one_file gff_2_5_4_8) "genes.gff" = Ok self ∧
    genes self !! "A" = Some g ∧
    let ivs := intervals_of "A" (gff_records (Py.readlines gff_2_5_4_8)) in
    g = numbered "A" ivs ∧
    size g = length ivs ∧
    (∀ i, g !! gene_name "A" i = ivs !! i) ∧
    (∀ pos, (∃ geneId, g !! geneId = Some pos) ↔ pos ∈ ivs).
Proof.
  eexists _, _. split; [vm_compute; reflexivity|].
  split; [vm_compute; reflexivity|].
  eapply (contiguous_file_keeps_every_gene
            (one_file gff_2_5_4_8) "genes.gff" gff_2_5_4_8).
  - vm_compute. reflexivity.
  - vm_compute. reflexivity.
  - apply contiguous_2_5_4_8.
  - vm_compute. reflexivity.
Defined.

Lemma codingBases_additive_witness :
  ∃ self, new (one_file gff_2_5_4_8) "genes.gff" = Ok self ∧
    ∃ x y,
      codingBases self "A" 0 (Some 4) = Ok x ∧
      codingBases self "A" 4 (Some 9) = Ok y ∧
      codingBases self "A" 0 (Some 9) = Ok (x + y).
Proof.
  eexists. split; [vm_compute; reflexivity|].
  apply (codingBases_additive (one_file gff_2_5_4_8) "genes.gff");
    [vm_compute; reflexivity|lia|lia].
Defined.

Lemma codingBases_bounds_witness :
  ∃ self, new (one_file gff_2_5_4_8) "genes.gff" = Ok self ∧
    0 ≤ 6 ≤ Z.max 0 (9 - 2) ∧
    (∀ n, lastCodingBase self !! "A" = Some n → 6 ≤ n).
Proof.
  eexists. split; [vm_compute; reflexivity|].
  apply (codingBases_bounds (one_file gff_2_5_4_8) "genes.gff" _ "A" 2 9 6);
    [vm_compute; reflexivity|lia|lia|vm_compute; reflexivity].
Defined.

Lemma codingBases_end_clipped_witness :
  ∃ self, new (one_file gff_2_5_4_8) "genes.gff" = Ok self ∧
    codingBases self "A" 3 (Some 100) = codingBases self "A" 3 None.
Proof.
  eexists. split; [vm_compute; reflexivity|].
  apply (codingBases_end_clipped (one_file gff_2_5_4_8) "genes.gff" _ "A" 8);
    [vm_compute; reflexivity|vm_compute; reflexivity|lia].
Defined.

Lemma contiguous_file_mask_witness :
  ∃ self, new (one_file gff_2_5_4_8) "genes.gff" = Ok self ∧
    let ivs := intervals_of "A" (gff_records (Py.readlines gff_2_5_4_8)) in
    ∃ mask,
      codingBaseMasks self !! "A" = Some mask ∧
      Z.of_nat (length mask) = max_end ivs ∧
      ∀ k : nat,
        mask !! k = Some 1 ↔
        Z.of_nat k < max_end ivs ∧ ∃ pos, pos ∈ ivs ∧ covers pos (Z.of_nat k).
Proof.
  eexists. split; [vm_compute; reflexivity|].
  eapply (contiguous_file_mask (one_file gff_2_5_4_8) "genes.gff" gff_2_5_4_8).
  - vm_compute. reflexivity.
  - vm_compute. reflexivity.
  - apply contiguous_2_5_4_8.
  - intros Hnil. vm_compute in Hnil. discriminate.
  - intros pos Hin. vm_compute in Hin.
    apply elem_of_cons in Hin as [->|Hin]; [simpl; lia|].
    apply list_elem_of_singleton in Hin as ->. simpl. lia.
Defined.

Lemma last_coding_base_has_no_entry_witness :
  ∃ self, new (one_file gff_2_5) "genes.gff" = Ok self ∧
    ∃ mask pos,
      codingBaseMasks self !! "A" = Some mask ∧
      pos ∈ intervals_of "A" (gff_records (Py.readlines gff_2_5)) ∧
      pos.2 = 5 ∧
      mask !! Z.to_nat 5 = None.
Proof.
  eexists. split; [vm_compute; reflexivity|].
  eapply (last_coding_base_has_no_entry (one_file gff_2_5) "genes.gff" gff_2_5);
    [vm_compute; reflexivity|vm_compute; reflexivity|vm_compute; reflexivity|lia].
Defined.

Lemma dictionaries_same_keys_witness :
  ∃ self, new (one_file gff_interleaved) "genes.gff" = Ok self ∧
    (is_Some (lastCodingBase self !! "B") ↔ is_Some (genes self !! "B")) ∧
    (is_Some (codingBaseMasks self !! "B") ↔ is_Some (genes self !! "B")).
Proof.
  eexists. split; [vm_compute; reflexivity|].
  apply (dictionaries_same_keys (one_file gff_interleaved) "genes.gff").
  vm_compute. reflexivity.
Defined.

(** The gene stored as [A_1] is the interval of the fourth line of A. *)
Lemma stored_genes_sound_witness :
  (7, 9) ∈ intervals_of "A" (gff_records (Py.readlines gff_interleaved)) ∧
  ∃ i, "A_1" = gene_name "A" i.
Proof.
  eapply (stored_genes_sound (one_file gff_interleaved) "genes.gff"
            gff_interleaved _ "A" _ "A_1" (7, 9));
    vm_compute; reflexivity.
Defined.

Lemma mask_sound_witness :
  ∃ pos, pos ∈ intervals_of "A" (gff_records (Py.readlines gff_interleaved)) ∧
         covers pos (Z.of_nat 8).
Proof.
  eapply (mask_sound (one_file gff_interleaved) "genes.gff" gff_interleaved
            _ "A" _ 8).
  - vm_compute. reflexivity.
  - vm_compute. reflexivity.
  - intros pos Hin. vm_compute in Hin.
    repeat (apply elem_of_cons in Hin as [->|Hin]; [simpl; lia|]).
    by apply elem_of_nil in Hin.
  - vm_compute. reflexivity.
  - vm_compute. reflexivity.
Defined.

End on_files.
